(** * donkeycar/parts/actuator.py: motor and servo actuators

    A shallow embedding of the actuator classes of
    [donkeycar/parts/actuator.py] and the properties of the command to
    signal translation they implement.

    Numbers.  Steering, throttle and pulse values are Python numbers; they
    are modelled as exact rationals ([Q]).  Values that the code stores or
    forwards untouched are compared with Leibniz equality, computed values
    with [==].  Rounding of binary floating point is outside the model.

    Effects.  Calls into the vendor libraries ([AMSpi], [Adafruit_PCA9685]),
    [print] and [time.sleep] are recorded as events of a trace; methods are
    computations in a state and exception monad over that trace (and, for
    the classes with mutable fields, over the object as well). *)

From Stdlib Require Import QArith Qabs Qround ZArith List String Lia Lqa.
Import ListNotations.

Local Open Scope Q_scope.

(** ** Python values and exceptions *)

Inductive exn : Type :=
| ValueError (msg : string)
| OSError (msg : string)
| ZeroDivisionError (msg : string)
| OtherError (msg : string).

(** [str(err)] for the exceptions above. *)
Definition str_exn (e : exn) : string :=
  match e with
  | ValueError m | OSError m | ZeroDivisionError m | OtherError m => m
  end.

Inductive outcome (A : Type) : Type :=
| Ok (a : A)
| Raise (e : exn).
Arguments Ok {A} a.
Arguments Raise {A} e.

(** [x > y], [x < y] and [x == y] as Python evaluates them. *)
Definition Qgtb (x y : Q) : bool := negb (Qle_bool x y).
Definition Qltb (x y : Q) : bool := negb (Qle_bool y x).

(** [int(x)]: truncation toward zero. *)
Definition int (x : Q) : Z := Z.quot (Qnum x) (Zpos (Qden x)).

(** ** Events and the monad *)

Inductive dc_motor : Type := DC_Motor_1 | DC_Motor_2 | DC_Motor_3 | DC_Motor_4.

Inductive event : Type :=
| EvSetPwm (channel : Z) (on : Z) (off : Q) (fault : option exn)
| EvPrint (line : string)
| EvSleep (secs : Z)
| EvRunDcMotors (dc_motors : list dc_motor) (speed : Z) (clockwise : bool)
| EvRunDcMotor (motor : dc_motor) (speed : Z) (clockwise : bool).

Definition trace := list event.

(** A computation reads and updates a state and returns or raises; the
    state reached when an exception is raised is kept. *)
Definition M (S A : Type) : Type := S -> outcome A * S.

Definition ret {S A} (a : A) : M S A := fun s => (Ok a, s).

Definition bind {S A B} (c : M S A) (k : A -> M S B) : M S B :=
  fun s => match c s with
           | (Ok a, s') => k a s'
           | (Raise e, s') => (Raise e, s')
           end.

Definition raise {S A} (e : exn) : M S A := fun s => (Raise e, s).

Definition try_except {S A} (c : M S A) (handler : exn -> M S A) : M S A :=
  fun s => match c s with
           | (Ok a, s') => (Ok a, s')
           | (Raise e, s') => handler e s'
           end.

Definition lift {S A} (o : outcome A) : M S A := fun s => (o, s).

Declare Scope monad_scope.
Delimit Scope monad_scope with monad.
Notation "x <- c ;; k" := (bind c (fun x => k))
  (at level 61, c at next level, right associativity) : monad_scope.
Notation "c ;; k" := (bind c (fun _ => k))
  (at level 61, right associativity) : monad_scope.
Local Open Scope monad_scope.

Definition when {S} (b : bool) (c : M S unit) : M S unit :=
  if b then c else ret tt.

(** Computations that only touch the trace, and methods of an object of
    class [T] with mutable fields. *)
Definition IO (A : Type) : Type := M trace A.
Definition Method (T A : Type) : Type := M (T * trace) A.

Definition emit (ev : event) : IO unit := fun tr => (Ok tt, tr ++ [ev]).

Definition io {T A} (c : IO A) : Method T A :=
  fun s => let (r, tr') := c (snd s) in (r, (fst s, tr')).

Definition get_self {T} : Method T T := fun s => (Ok (fst s), s).
Definition set_self {T} (f : T -> T) : Method T unit :=
  fun s => (Ok tt, (f (fst s), snd s)).

Definition print (line : string) : IO unit := emit (EvPrint line).
Definition sleep (secs : Z) : IO unit := emit (EvSleep secs).

(** ** [donkeycar.util.data.map_range] *)

(** Modelled from the spec: [dk.util.data.map_range] is imported from
    [donkeycar/util/data.py], which is not among the sources.  The spec
    gives it as the linear interpolation
    [out_min + (value - in_min) * (out_max - out_min) / (in_max - in_min)],
    without clamping, and with equal input bounds a fatal division by
    zero. *)
Definition map_range (value in_min in_max out_min out_max : Q) : outcome Q :=
  if Qeq_bool (in_max - in_min) 0
  then Raise (ZeroDivisionError "division by zero")
  else Ok (out_min + (value - in_min) * (out_max - out_min) / (in_max - in_min)).

(** ** class AMSL293D *)

Module AMSL293D.

Record t : Type := mk { throttleL : Q; throttleR : Q }.

Definition set_throttleL (v : Q) : Method t unit :=
  set_self (fun self => mk v (throttleR self)).
Definition set_throttleR (v : Q) : Method t unit :=
  set_self (fun self => mk (throttleL self) v).

(** [self.amspi.run_dc_motors] and [self.amspi.run_dc_motor]. *)
Definition run_dc_motors (dc_motors : list dc_motor) (speed : Z)
    (clockwise : bool) : IO unit :=
  emit (EvRunDcMotors dc_motors speed clockwise).
Definition run_dc_motor (motor : dc_motor) (speed : Z)
    (clockwise : bool) : IO unit :=
  emit (EvRunDcMotor motor speed clockwise).

(** The fields [__init__] sets, after the board is wired. *)
Definition init : t := mk 0 0.

Definition convert (value : Q) : Method t Z :=
  x <- lift (map_range (Qabs value) 0 1 0 100) ;;
  ret (int x).

Definition runLeftMotors (throttle : Q) : Method t unit :=
  speed <- convert (Qabs throttle) ;;
  io (run_dc_motors [DC_Motor_1; DC_Motor_2] speed (Qgtb throttle 0)).

Definition runRightMotors (throttle : Q) : Method t unit :=
  speed <- convert (Qabs throttle) ;;
  io (run_dc_motor DC_Motor_3 speed (Qgtb throttle 0)) ;;
  speed' <- convert (Qabs throttle) ;;
  io (run_dc_motor DC_Motor_4 speed' (negb (Qgtb throttle 0))).

Definition run (steering throttle : Q) : Method t unit :=
  when (Qgtb throttle 1 || Qltb throttle (-1))
    (raise (ValueError "Speed must be between 1(forward) and -1(reverse)")) ;;
  when (Qgtb steering 1 || Qltb steering (-1))
    (raise (ValueError "Steering must be between 1 and -1")) ;;
  (if Qeq_bool steering 0 then
     set_throttleL throttle ;;
     set_throttleR throttle
   else if Qgtb steering 0 && Qgtb throttle 0 then
     set_throttleL throttle ;;
     set_throttleR (throttle - steering)
   else if Qltb steering 0 && Qgtb throttle 0 then
     set_throttleL (throttle + steering) ;;
     set_throttleR throttle
   else if Qgtb steering 0 && Qltb throttle 0 then
     set_throttleL throttle ;;
     set_throttleR (throttle + steering)
   else if Qltb steering 0 && Qltb throttle 0 then
     set_throttleL (throttle - steering) ;;
     set_throttleR throttle
   else ret tt) ;;
  self <- get_self ;;
  runLeftMotors (throttleL self) ;;
  self <- get_self ;;
  runRightMotors (throttleR self).

End AMSL293D.

(** ** class PCA9685 *)

(** Objects that take pulses: what [PWMSteering] and [PWMThrottle] expect
    of their [controller]. *)
Class Controller (C : Type) : Type :=
  set_pulse : C -> Q -> IO unit.

Module PCA9685.

(** [pwm] is the [Adafruit_PCA9685] device: whether a register write
    raises, and what, given everything that happened before. *)
Record t : Type := mk {
  pwm : trace -> Z -> Z -> Q -> option exn;
  channel : Z
}.

(** [self.pwm.set_pwm(channel, on, off)]. *)
Definition set_pwm (self : t) (chan on : Z) (off : Q) : IO unit :=
  fun tr =>
    match pwm self tr chan on off with
    | None => (Ok tt, tr ++ [EvSetPwm chan on off None])
    | Some e => (Raise e, tr ++ [EvSetPwm chan on off (Some e)])
    end.

Definition issue_message (err : exn) : string :=
  ("Unexpected issue setting PWM (check wires to motor board): "
     ++ str_exn err)%string.

Definition set_pulse (self : t) (pulse : Q) : IO unit :=
  try_except (set_pwm self (channel self) 0 pulse)
    (fun err => match err with
                | OSError _ => print (issue_message err)
                | _ => raise err
                end).

Definition run (self : t) (pulse : Q) : IO unit := set_pulse self pulse.

End PCA9685.

#[export] Instance PCA9685_Controller : Controller PCA9685.t :=
  PCA9685.set_pulse.

(** ** class PWMSteering *)

Module PWMSteering.

Definition LEFT_ANGLE : Q := -1.
Definition RIGHT_ANGLE : Q := 1.

Record t (C : Type) : Type := mk {
  controller : C;
  left_pulse : Q;
  right_pulse : Q
}.
Arguments mk {C}.
Arguments controller {C}.
Arguments left_pulse {C}.
Arguments right_pulse {C}.

Definition default_left_pulse : Q := 290.
Definition default_right_pulse : Q := 490.

Definition init {C} (controller : C) (left_pulse right_pulse : Q) : t C :=
  mk controller left_pulse right_pulse.

Definition run {C} `{Controller C} (self : t C) (angle : Q) : IO unit :=
  pulse <- lift (map_range angle LEFT_ANGLE RIGHT_ANGLE
                   (left_pulse self) (right_pulse self)) ;;
  set_pulse (controller self) pulse.

Definition shutdown {C} `{Controller C} (self : t C) : IO unit :=
  run self 0.

End PWMSteering.

(** ** class PWMThrottle *)

Module PWMThrottle.

Definition MIN_THROTTLE : Q := -1.
Definition MAX_THROTTLE : Q := 1.

Record t (C : Type) : Type := mk {
  controller : C;
  max_pulse : Q;
  min_pulse : Q;
  zero_pulse : Q
}.
Arguments mk {C}.
Arguments controller {C}.
Arguments max_pulse {C}.
Arguments min_pulse {C}.
Arguments zero_pulse {C}.

Definition default_max_pulse : Q := 300.
Definition default_min_pulse : Q := 490.
Definition default_zero_pulse : Q := 350.

Definition init {C} `{Controller C} (controller : C)
    (max_pulse min_pulse zero_pulse : Q) : IO (t C) :=
  let self := mk controller max_pulse min_pulse zero_pulse in
  set_pulse (PWMThrottle.controller self) (PWMThrottle.zero_pulse self) ;;
  sleep 1 ;;
  ret self.

Definition run {C} `{Controller C} (self : t C) (throttle : Q) : IO unit :=
  pulse <- (if Qgtb throttle 0
            then lift (map_range throttle 0 MAX_THROTTLE
                         (zero_pulse self) (max_pulse self))
            else lift (map_range throttle MIN_THROTTLE 0
                         (min_pulse self) (zero_pulse self))) ;;
  set_pulse (controller self) pulse.

Definition shutdown {C} `{Controller C} (self : t C) : IO unit :=
  run self 0.

End PWMThrottle.

(** ** Observations on traces *)

(** The register writes attempted, in order. *)
Fixpoint pwm_writes (tr : trace) : list (Z * Z * Q) :=
  match tr with
  | [] => []
  | EvSetPwm c on off _ :: tr' => (c, on, off) :: pwm_writes tr'
  | _ :: tr' => pwm_writes tr'
  end.

(** The waits performed, in order. *)
Fixpoint sleeps (tr : trace) : list Z :=
  match tr with
  | [] => []
  | EvSleep s :: tr' => s :: sleeps tr'
  | _ :: tr' => sleeps tr'
  end.

(** The pulse a channel holds: the last write on it that went through. *)
Fixpoint pwm_position_from (chan : Z) (cur : option Q) (tr : trace) : option Q :=
  match tr with
  | [] => cur
  | EvSetPwm c _ off None :: tr' =>
      pwm_position_from chan (if Z.eqb c chan then Some off else cur) tr'
  | _ :: tr' => pwm_position_from chan cur tr'
  end.

Definition pwm_position (chan : Z) (tr : trace) : option Q :=
  pwm_position_from chan None tr.

(** The events of one side's dispatch. *)
Definition left_events (speed : Z) (clockwise : bool) : trace :=
  [EvRunDcMotors [DC_Motor_1; DC_Motor_2] speed clockwise].

Definition right_events (speed : Z) (clockwise : bool) : trace :=
  [EvRunDcMotor DC_Motor_3 speed clockwise;
   EvRunDcMotor DC_Motor_4 speed (negb clockwise)].

(** What [run] sends to the motors once the two fields are settled. *)
Definition dispatch_events (self : AMSL293D.t) : trace :=
  left_events (Qfloor (100 * Qabs (AMSL293D.throttleL self)))
              (Qgtb (AMSL293D.throttleL self) 0)
  ++ right_events (Qfloor (100 * Qabs (AMSL293D.throttleR self)))
                  (Qgtb (AMSL293D.throttleR self) 0).

(** The shape of a tick on which the bus failed: the attempt and the
    printed line are all that is added, and every channel holds the pulse
    it held. *)
Definition degraded (self : PCA9685.t) (m : string) (tr : trace)
    (r : outcome unit * trace) : Prop :=
  exists pulse,
    r = (Ok tt, tr ++ [EvSetPwm (PCA9685.channel self) 0 pulse
                         (Some (OSError m));
                       EvPrint (PCA9685.issue_message (OSError m))])
    /\ forall chan, pwm_position chan (snd r) = pwm_position chan tr.

(** A board whose bus is down. *)
Definition unplugged : PCA9685.t :=
  PCA9685.mk (fun _ _ _ _ => Some (OSError "[Errno 121] Remote I/O error")) 1.

(** ** class Adafruit_DCMotor_Hat *)

(** [run] is embedded.  [__init__] and [shutdown] refer to names that are
    bound outside the class body ([self.turn_off_motors], a module level
    [Adafruit_MotorHAT]) and are left out; the properties of [run] hold for
    every object with the three fields. *)
Module Adafruit_DCMotor_Hat.

Inductive command : Type := FORWARD | BACKWARD | RELEASE.

(** Calls on [self.motor], the motor [motor_num] of the hat. *)
Inductive hat_event : Type :=
| EvMotorRun (motor_num : Z) (cmd : command)
| EvSetSpeed (motor_num : Z) (speed : Z).

Record t : Type := mk { motor_num : Z; speed : Q; throttle : Z }.

Definition Hat (A : Type) : Type := M (t * list hat_event) A.

Definition get : Hat t := fun s => (Ok (fst s), s).
Definition set_speed (v : Q) : Hat unit :=
  fun s => (Ok tt, (mk (motor_num (fst s)) v (throttle (fst s)), snd s)).
Definition set_throttle (v : Z) : Hat unit :=
  fun s => (Ok tt, (mk (motor_num (fst s)) (speed (fst s)) v, snd s)).

(** [self.motor.run(cmd)] and [self.motor.setSpeed(v)]. *)
Definition motor_run (cmd : command) : Hat unit :=
  fun s => (Ok tt, (fst s, snd s ++ [EvMotorRun (motor_num (fst s)) cmd])).
Definition motor_setSpeed (v : Z) : Hat unit :=
  fun s => (Ok tt, (fst s, snd s ++ [EvSetSpeed (motor_num (fst s)) v])).

Definition run (speed : Q) : Hat unit :=
  when (Qgtb speed 1 || Qltb speed (-1))
    (raise (ValueError "Speed must be between 1(forward) and -1(reverse)")) ;;
  set_speed speed ;;
  x <- lift (map_range (Qabs speed) (-1) 1 (-255) 255) ;;
  set_throttle (int x) ;;
  (if Qgtb speed 0 then motor_run FORWARD else motor_run BACKWARD) ;;
  self <- get ;;
  motor_setSpeed (throttle self).

End Adafruit_DCMotor_Hat.

(** ** Further observations *)

(** The speeds commanded to the DC motors, in order. *)
Fixpoint motor_speeds (tr : trace) : list Z :=
  match tr with
  | [] => []
  | EvRunDcMotors _ v _ :: tr' => v :: motor_speeds tr'
  | EvRunDcMotor _ v _ :: tr' => v :: motor_speeds tr'
  | _ :: tr' => motor_speeds tr'
  end.

(** Both stored side commands are normalized commands. *)
Definition sides_in_range (self : AMSL293D.t) : Prop :=
  Qabs (AMSL293D.throttleL self) <= 1 /\ Qabs (AMSL293D.throttleR self) <= 1.

(** The object with its two sides exchanged. *)
Definition swap_sides (self : AMSL293D.t) : AMSL293D.t :=
  AMSL293D.mk (AMSL293D.throttleR self) (AMSL293D.throttleL self).

(** A board that takes every write. *)
Definition healthy (chan : Z) : PCA9685.t :=
  PCA9685.mk (fun _ _ _ _ => None) chan.

(** The object as the branches of [AMSL293D.run] leave it, for a command
    that passed validation. *)
Definition blend (self : AMSL293D.t) (steering throttle : Q) : AMSL293D.t :=
  if Qeq_bool steering 0 then AMSL293D.mk throttle throttle
  else if Qgtb steering 0 && Qgtb throttle 0
       then AMSL293D.mk throttle (throttle - steering)
  else if Qltb steering 0 && Qgtb throttle 0
       then AMSL293D.mk (throttle + steering) throttle
  else if Qgtb steering 0 && Qltb throttle 0
       then AMSL293D.mk throttle (throttle + steering)
  else if Qltb steering 0 && Qltb throttle 0
       then AMSL293D.mk (throttle - steering) throttle
  else self.

(** * Properties *)

(** ** Comparisons, truncation and the range mapper *)

Lemma Qgtb_true_iff (x y : Q) : Qgtb x y = true <-> y < x.
Proof.
  unfold Qgtb. rewrite Bool.negb_true_iff, <- Bool.not_true_iff_false, Qle_bool_iff.
  split; [apply Qnot_le_lt | apply Qlt_not_le].
Qed.

Lemma Qgtb_false_iff (x y : Q) : Qgtb x y = false <-> x <= y.
Proof.
  unfold Qgtb. rewrite Bool.negb_false_iff. apply Qle_bool_iff.
Qed.

Lemma Qltb_true_iff (x y : Q) : Qltb x y = true <-> x < y.
Proof. unfold Qltb. apply (Qgtb_true_iff y x). Qed.

Lemma Qltb_false_iff (x y : Q) : Qltb x y = false <-> y <= x.
Proof. unfold Qltb. apply (Qgtb_false_iff y x). Qed.

Lemma Qeq_bool_false_iff (x y : Q) : Qeq_bool x y = false <-> ~ x == y.
Proof.
  rewrite <- Bool.not_true_iff_false, Qeq_bool_iff. tauto.
Qed.

(** On non-negative numbers [int] is the floor. *)
Lemma int_nonneg_floor (x : Q) : 0 <= x -> int x = Qfloor x.
Proof.
  destruct x as [n d]. unfold Qle, int, Qfloor. simpl. intros Hn.
  apply Z.quot_div_nonneg; lia.
Qed.

Lemma map_range_unit (value out_min out_max : Q) :
  map_range value 0 1 out_min out_max
  = Ok (out_min + (value - 0) * (out_max - out_min) / (1 - 0)).
Proof. reflexivity. Qed.

Lemma map_range_percent (value : Q) :
  exists x, map_range (Qabs value) 0 1 0 100 = Ok x /\ x == 100 * Qabs value.
Proof.
  eexists. split; [apply map_range_unit|]. field.
Qed.

(** ** AMSL293D: conversion and dispatch *)

Lemma convert_floor (value : Q) (s : AMSL293D.t * trace) :
  AMSL293D.convert value s = (Ok (Qfloor (100 * Qabs value)), s).
Proof.
  unfold AMSL293D.convert, bind, lift, ret.
  destruct (map_range_percent value) as (x & -> & Hx).
  f_equal. f_equal. rewrite int_nonneg_floor.
  - now rewrite Hx.
  - rewrite Hx. pose proof (Qabs_nonneg value). lra.
Qed.

Lemma convert_abs (value : Q) (s : AMSL293D.t * trace) :
  AMSL293D.convert (Qabs value) s = (Ok (Qfloor (100 * Qabs value)), s).
Proof.
  rewrite convert_floor. do 2 f_equal.
  apply Qfloor_comp. rewrite (Qabs_pos (Qabs value) (Qabs_nonneg value)).
  reflexivity.
Qed.

Lemma runLeftMotors_events (throttle : Q) (self : AMSL293D.t) (tr : trace) :
  AMSL293D.runLeftMotors throttle (self, tr)
  = (Ok tt, (self, tr ++ left_events (Qfloor (100 * Qabs throttle))
                               (Qgtb throttle 0))).
Proof.
  unfold AMSL293D.runLeftMotors, bind. rewrite convert_abs. reflexivity.
Qed.

Lemma runRightMotors_events (throttle : Q) (self : AMSL293D.t) (tr : trace) :
  AMSL293D.runRightMotors throttle (self, tr)
  = (Ok tt, (self, tr ++ right_events (Qfloor (100 * Qabs throttle))
                               (Qgtb throttle 0))).
Proof.
  unfold AMSL293D.runRightMotors, bind. rewrite convert_abs.
  unfold io, AMSL293D.run_dc_motor, emit. cbn [fst snd].
  rewrite convert_abs. cbn [fst snd]. rewrite <- app_assoc. reflexivity.
Qed.

Lemma Qabs_gt_1 (x : Q) : 1 < Qabs x <-> 1 < x \/ x < -1.
Proof.
  apply Qabs_case; intros; split; intros; try lra.
Qed.

Lemma Qabs_le_1 (x : Q) : Qabs x <= 1 <-> -1 <= x <= 1.
Proof.
  apply Qabs_case; intros; split; intros; try lra.
Qed.

Lemma Qabs_pos_iff (x : Q) : 0 < Qabs x <-> ~ x == 0.
Proof.
  apply Qabs_case; intros; split; intros; try lra.
Qed.

Ltac prop_of_bool :=
  repeat match goal with
  | H : Qgtb _ _ = true |- _ => apply Qgtb_true_iff in H
  | H : Qgtb _ _ = false |- _ => apply Qgtb_false_iff in H
  | H : Qltb _ _ = true |- _ => apply Qltb_true_iff in H
  | H : Qltb _ _ = false |- _ => apply Qltb_false_iff in H
  | H : Qeq_bool _ _ = true |- _ => apply Qeq_bool_iff in H
  | H : Qeq_bool _ _ = false |- _ => apply Qeq_bool_false_iff in H
  end.

Lemma guard_false (x : Q) :
  Qabs x <= 1 -> Qgtb x 1 || Qltb x (-1) = false.
Proof.
  intros H. apply Qabs_le_1 in H. apply Bool.orb_false_iff. split.
  - apply Qgtb_false_iff. lra.
  - apply Qltb_false_iff. lra.
Qed.

Lemma guard_true (x : Q) :
  1 < Qabs x -> Qgtb x 1 || Qltb x (-1) = true.
Proof.
  intros H. apply Qabs_gt_1 in H. apply Bool.orb_true_iff.
  destruct H; [left; apply Qgtb_true_iff | right; apply Qltb_true_iff]; lra.
Qed.

Lemma bind_ok {S A B} (c : M S A) (k : A -> M S B) (s s' : S) (a : A) :
  c s = (Ok a, s') -> bind c k s = k a s'.
Proof. unfold bind. now intros ->. Qed.

Lemma bind_raise {S A B} (c : M S A) (k : A -> M S B) (s s' : S) (e : exn) :
  c s = (Raise e, s') -> bind c k s = (Raise e, s').
Proof. unfold bind. now intros ->. Qed.

(** The last two statements of [run]: both sides are dispatched with the
    fields as they are. *)
Lemma run_tail (self : AMSL293D.t) (tr : trace) :
  (self0 <- get_self ;;
   AMSL293D.runLeftMotors (AMSL293D.throttleL self0) ;;
   self1 <- get_self ;;
   AMSL293D.runRightMotors (AMSL293D.throttleR self1)) (self, tr)
  = (Ok tt, (self, tr ++ dispatch_events self)).
Proof.
  unfold bind, get_self. cbn [fst snd].
  rewrite runLeftMotors_events. cbn [fst snd].
  rewrite runRightMotors_events. unfold dispatch_events.
  now rewrite app_assoc.
Qed.

(** [run] on commands that pass validation: the branch taken leaves the
    object as [self'], and the dispatch follows. *)
Lemma run_valid (steering throttle : Q) (self : AMSL293D.t) (tr : trace) :
  Qabs steering <= 1 -> Qabs throttle <= 1 ->
  exists self',
    AMSL293D.run steering throttle (self, tr)
    = (Ok tt, (self', tr ++ dispatch_events self'))
    /\ self' =
       (if Qeq_bool steering 0 then AMSL293D.mk throttle throttle
        else if Qgtb steering 0 && Qgtb throttle 0
             then AMSL293D.mk throttle (throttle - steering)
        else if Qltb steering 0 && Qgtb throttle 0
             then AMSL293D.mk (throttle + steering) throttle
        else if Qgtb steering 0 && Qltb throttle 0
             then AMSL293D.mk throttle (throttle + steering)
        else if Qltb steering 0 && Qltb throttle 0
             then AMSL293D.mk (throttle - steering) throttle
        else self).
Proof.
  intros Hs Ht. unfold AMSL293D.run.
  unfold bind at 1. rewrite (guard_false _ Ht). cbn [when ret].
  unfold bind at 1. rewrite (guard_false _ Hs). cbn [when ret].
  destruct (Qeq_bool steering 0);
    [| destruct (Qgtb steering 0 && Qgtb throttle 0);
       [| destruct (Qltb steering 0 && Qgtb throttle 0);
          [| destruct (Qgtb steering 0 && Qltb throttle 0);
             [| destruct (Qltb steering 0 && Qltb throttle 0)]]]];
    (erewrite bind_ok by reflexivity); rewrite run_tail;
    eexists; split; reflexivity.
Qed.

(** [run] on a command that fails validation: nothing is assigned and
    nothing is dispatched. *)
Lemma run_invalid (steering throttle : Q) (s : AMSL293D.t * trace) :
  1 < Qabs throttle \/ 1 < Qabs steering ->
  exists msg,
    AMSL293D.run steering throttle s = (Raise (ValueError msg), s)
    /\ (msg = "Speed must be between 1(forward) and -1(reverse)"%string
        \/ msg = "Steering must be between 1 and -1"%string).
Proof.
  intros H. unfold AMSL293D.run.
  destruct (Qgtb throttle 1 || Qltb throttle (-1)) eqn:Et.
  - eexists. split; [|left; reflexivity].
    apply bind_raise. reflexivity.
  - destruct H as [H | H]; [rewrite (guard_true _ H) in Et; discriminate|].
    eexists. split; [|right; reflexivity].
    erewrite bind_ok by reflexivity.
    apply bind_raise. rewrite (guard_true _ H). reflexivity.
Qed.

(** ** AMSL293D: the claims *)

(** C1. For steering and throttle within [-1, 1], [AMSL293D.run] returns
    normally, leaves the pair [left], [right] in the fields [throttleL],
    [throttleR] and drives the motors with that pair, where: steering zero
    gives left = right = throttle; steering and throttle positive give
    left = throttle, right = throttle - steering; steering negative and
    throttle positive give left = throttle + steering, right = throttle;
    steering positive and throttle negative give left = throttle,
    right = throttle + steering; both negative give
    left = throttle - steering, right = throttle. *)
Theorem AMSL293D_run_quadrant_blending
    (steering throttle : Q) (self : AMSL293D.t) (tr : trace) :
  Qabs steering <= 1 -> Qabs throttle <= 1 ->
  exists left right : Q,
    AMSL293D.run steering throttle (self, tr)
    = (Ok tt, (AMSL293D.mk left right,
               tr ++ dispatch_events (AMSL293D.mk left right)))
    /\ (steering == 0 -> left = throttle /\ right = throttle)
    /\ (0 < steering -> 0 < throttle ->
        left = throttle /\ right = throttle - steering)
    /\ (steering < 0 -> 0 < throttle ->
        left = throttle + steering /\ right = throttle)
    /\ (0 < steering -> throttle < 0 ->
        left = throttle /\ right = throttle + steering)
    /\ (steering < 0 -> throttle < 0 ->
        left = throttle - steering /\ right = throttle).
Proof.
  intros Hs Ht.
  destruct (run_valid steering throttle self tr Hs Ht) as (self' & Hrun & Hself).
  exists (AMSL293D.throttleL self'), (AMSL293D.throttleR self').
  split; [destruct self'; exact Hrun|].
  clear Hrun.
  destruct (Qeq_bool steering 0) eqn:E0;
    destruct (Qgtb steering 0) eqn:Es1; destruct (Qltb steering 0) eqn:Es2;
    destruct (Qgtb throttle 0) eqn:Et1; destruct (Qltb throttle 0) eqn:Et2;
    cbn in Hself; subst self'; prop_of_bool; cbn;
    repeat split; intros; first [reflexivity | exfalso; lra].
Qed.

Lemma AMSL293D_run_quadrant_blending_witness :
  exists left right : Q,
    AMSL293D.run (3 # 10) (1 # 2) (AMSL293D.init, [])
    = (Ok tt, (AMSL293D.mk left right,
               [] ++ dispatch_events (AMSL293D.mk left right)))
    /\ (3 # 10 == 0 -> left = 1 # 2 /\ right = 1 # 2)
    /\ (0 < 3 # 10 -> 0 < 1 # 2 ->
        left = 1 # 2 /\ right = (1 # 2) - (3 # 10))
    /\ (3 # 10 < 0 -> 0 < 1 # 2 ->
        left = (1 # 2) + (3 # 10) /\ right = 1 # 2)
    /\ (0 < 3 # 10 -> 1 # 2 < 0 ->
        left = 1 # 2 /\ right = (1 # 2) + (3 # 10))
    /\ (3 # 10 < 0 -> 1 # 2 < 0 ->
        left = (1 # 2) - (3 # 10) /\ right = 1 # 2).
Proof.
  apply (AMSL293D_run_quadrant_blending (3 # 10) (1 # 2) AMSL293D.init []);
    unfold Qle; simpl; lia.
Defined.

(** The worked example of the blending: throttle 0.5 with steering 0.3
    gives left 0.5 and right 0.2. *)
Example run_quadrant_1 :
  exists left right,
    snd (AMSL293D.run (3 # 10) (1 # 2) (AMSL293D.init, []))
    = (AMSL293D.mk left right,
       [EvRunDcMotors [DC_Motor_1; DC_Motor_2] 50 true;
        EvRunDcMotor DC_Motor_3 20 true;
        EvRunDcMotor DC_Motor_4 20 false])
    /\ left == 1 # 2 /\ right == 2 # 10.
Proof. do 2 eexists. split; [reflexivity|]. split; reflexivity. Qed.

(** C2. A throttle or a steering of magnitude above 1 makes
    [AMSL293D.run] raise [ValueError] (the spec's InvalidCommand) with the
    object and the trace exactly as they were: nothing was blended and no
    motor was driven. *)
Theorem AMSL293D_run_rejects
    (steering throttle : Q) (s : AMSL293D.t * trace) :
  1 < Qabs throttle \/ 1 < Qabs steering ->
  exists msg, AMSL293D.run steering throttle s = (Raise (ValueError msg), s).
Proof.
  intros H. destruct (run_invalid steering throttle s H) as (msg & Hrun & _).
  now exists msg.
Qed.

Lemma AMSL293D_run_rejects_witness :
  (exists msg, AMSL293D.run (3 # 2) 0 (AMSL293D.init, [])
               = (Raise (ValueError msg), (AMSL293D.init, [])))
  /\ (exists msg, AMSL293D.run 0 (-2) (AMSL293D.init, [])
                  = (Raise (ValueError msg), (AMSL293D.init, []))).
Proof.
  split.
  - apply (AMSL293D_run_rejects (3 # 2) 0 (AMSL293D.init, [])).
    right. unfold Qlt. simpl. lia.
  - apply (AMSL293D_run_rejects 0 (-2) (AMSL293D.init, [])).
    left. unfold Qlt. simpl. lia.
Defined.

(** The two rejected commands of the spec, with the messages raised. *)
Example run_rejects_steering (s : AMSL293D.t * trace) :
  AMSL293D.run (3 # 2) 0 s
  = (Raise (ValueError "Steering must be between 1 and -1"), s).
Proof. reflexivity. Qed.

Example run_rejects_throttle (s : AMSL293D.t * trace) :
  AMSL293D.run 0 (-2) s
  = (Raise (ValueError "Speed must be between 1(forward) and -1(reverse)"), s).
Proof. reflexivity. Qed.

(** C9. With a throttle of exactly zero and a steering that is not zero
    (and within range), no branch of [AMSL293D.run] assigns: the fields
    [throttleL] and [throttleR] keep what the previous call left there, and
    the motors are driven from those kept values. *)
Theorem AMSL293D_run_zero_throttle_stale
    (steering throttle : Q) (self : AMSL293D.t) (tr : trace) :
  0 < Qabs steering -> Qabs steering <= 1 -> throttle == 0 ->
  AMSL293D.run steering throttle (self, tr)
  = (Ok tt, (self, tr ++ dispatch_events self)).
Proof.
  intros Hnz Hs Ht.
  assert (Ht1 : Qabs throttle <= 1) by (apply Qabs_le_1; lra).
  destruct (run_valid steering throttle self tr Hs Ht1) as (self' & -> & ->).
  apply Qabs_pos_iff in Hnz.
  replace (Qeq_bool steering 0) with false
    by (symmetry; now apply Qeq_bool_false_iff).
  replace (Qgtb throttle 0) with false
    by (symmetry; apply Qgtb_false_iff; lra).
  replace (Qltb throttle 0) with false
    by (symmetry; apply Qltb_false_iff; lra).
  rewrite !Bool.andb_false_r. reflexivity.
Qed.

Lemma AMSL293D_run_zero_throttle_stale_witness :
  AMSL293D.run (1 # 2) 0 (AMSL293D.mk (1 # 4) (3 # 4), [])
  = (Ok tt, (AMSL293D.mk (1 # 4) (3 # 4),
             [] ++ dispatch_events (AMSL293D.mk (1 # 4) (3 # 4)))).
Proof.
  apply (AMSL293D_run_zero_throttle_stale (1 # 2) 0
           (AMSL293D.mk (1 # 4) (3 # 4)) []).
  - unfold Qlt. simpl. lia.
  - unfold Qle. simpl. lia.
  - reflexivity.
Defined.

(** A forward command followed by a pure turn: the second call drives the
    motors with the speeds of the first. *)
Example run_stale_after_forward :
  let s1 := snd (AMSL293D.run 0 (1 # 2) (AMSL293D.init, [])) in
  snd (AMSL293D.run 1 0 (fst s1, []))
  = (AMSL293D.mk (1 # 2) (1 # 2),
     [EvRunDcMotors [DC_Motor_1; DC_Motor_2] 50 true;
      EvRunDcMotor DC_Motor_3 50 true;
      EvRunDcMotor DC_Motor_4 50 false]).
Proof. reflexivity. Qed.

(** C10. When the throttle or the steering has magnitude above 1,
    [AMSL293D.run] raises and the call has no effect: [throttleL] and
    [throttleR] are what they were and the trace has no new event. *)
Theorem AMSL293D_run_invalid_atomic
    (steering throttle : Q) (self : AMSL293D.t) (tr : trace) :
  1 < Qabs throttle \/ 1 < Qabs steering ->
  let r := AMSL293D.run steering throttle (self, tr) in
  (exists e, fst r = Raise e)
  /\ AMSL293D.throttleL (fst (snd r)) = AMSL293D.throttleL self
  /\ AMSL293D.throttleR (fst (snd r)) = AMSL293D.throttleR self
  /\ snd (snd r) = tr.
Proof.
  intros H r. subst r.
  destruct (run_invalid steering throttle (self, tr) H) as (msg & -> & _).
  cbn. repeat split. now exists (ValueError msg).
Qed.

Lemma AMSL293D_run_invalid_atomic_witness :
  let r := AMSL293D.run (-3) (1 # 2) (AMSL293D.mk (1 # 4) (3 # 4), []) in
  (exists e, fst r = Raise e)
  /\ AMSL293D.throttleL (fst (snd r)) = 1 # 4
  /\ AMSL293D.throttleR (fst (snd r)) = 3 # 4
  /\ snd (snd r) = [].
Proof.
  apply (AMSL293D_run_invalid_atomic (-3) (1 # 2)
           (AMSL293D.mk (1 # 4) (3 # 4)) []).
  right. unfold Qlt. simpl. lia.
Defined.

(** C8. Each side's command [value] is turned into the speed
    [int(map_range(abs(value), 0, 1, 0, 100))], the whole part of
    [100 * |value|], and the direction flag [value > 0].  The left pair gets
    one command; on the right, motor 3 gets the direction flag and motor 4
    the same speed with the flag negated. *)
Theorem AMSL293D_dispatch_magnitude_direction
    (value : Q) (self : AMSL293D.t) (tr : trace) :
  exists speed : Z,
    (exists x, map_range (Qabs (Qabs value)) 0 1 0 100 = Ok x
               /\ x == 100 * Qabs value /\ speed = int x)
    /\ AMSL293D.convert (Qabs value) (self, tr) = (Ok speed, (self, tr))
    /\ (0 <= speed)%Z
    /\ inject_Z speed <= 100 * Qabs value < inject_Z speed + 1
    /\ AMSL293D.runLeftMotors value (self, tr)
       = (Ok tt, (self, tr ++ [EvRunDcMotors [DC_Motor_1; DC_Motor_2]
                                 speed (Qgtb value 0)]))
    /\ AMSL293D.runRightMotors value (self, tr)
       = (Ok tt, (self, tr ++ [EvRunDcMotor DC_Motor_3 speed (Qgtb value 0);
                               EvRunDcMotor DC_Motor_4 speed
                                 (negb (Qgtb value 0))]))
    /\ (Qgtb value 0 = true <-> 0 < value).
Proof.
  exists (Qfloor (100 * Qabs value)).
  pose proof (Qabs_nonneg value) as Hnn.
  split.
  { destruct (map_range_percent (Qabs value)) as (x & Hx & Hv).
    rewrite (Qabs_pos _ Hnn) in Hv.
    exists x. repeat split; trivial.
    rewrite int_nonneg_floor by (rewrite Hv; lra).
    now rewrite Hv. }
  split; [apply convert_abs|].
  split.
  { change 0%Z with (Qfloor 0). apply Qfloor_resp_le. lra. }
  split.
  { split; [apply Qfloor_le|].
    pose proof (Qlt_floor (100 * Qabs value)) as Hlt.
    rewrite inject_Z_plus in Hlt. exact Hlt. }
  split; [apply runLeftMotors_events|].
  split; [apply runRightMotors_events|].
  apply Qgtb_true_iff.
Qed.

(** Three quarters of full reverse on the right side. *)
Example runRightMotors_reverse :
  AMSL293D.runRightMotors (- (3 # 4)) (AMSL293D.init, [])
  = (Ok tt, (AMSL293D.init, [EvRunDcMotor DC_Motor_3 75 false;
                             EvRunDcMotor DC_Motor_4 75 true])).
Proof. reflexivity. Qed.

(** ** PWMSteering and PWMThrottle: the pulse sent *)

Section Pulses.

Context {C : Type} `{Controller C}.

Lemma PWMSteering_run_pulse (self : PWMSteering.t C) (angle : Q) (tr : trace) :
  PWMSteering.run self angle tr
  = set_pulse (PWMSteering.controller self)
      (PWMSteering.left_pulse self
       + (angle - -1)
         * (PWMSteering.right_pulse self - PWMSteering.left_pulse self)
         / (1 - -1)) tr.
Proof. reflexivity. Qed.

Lemma PWMThrottle_run_pulse (self : PWMThrottle.t C) (throttle : Q) (tr : trace) :
  PWMThrottle.run self throttle tr
  = set_pulse (PWMThrottle.controller self)
      (if Qgtb throttle 0
       then PWMThrottle.zero_pulse self
            + (throttle - 0)
              * (PWMThrottle.max_pulse self - PWMThrottle.zero_pulse self)
              / (1 - 0)
       else PWMThrottle.min_pulse self
            + (throttle - -1)
              * (PWMThrottle.zero_pulse self - PWMThrottle.min_pulse self)
              / (0 - -1)) tr.
Proof.
  unfold PWMThrottle.run. destruct (Qgtb throttle 0); reflexivity.
Qed.

(** C3. [PWMThrottle.run] hands its controller one pulse.  For a
    positive throttle the pulse is the point of the line from
    (0, zero_pulse) to (1, max_pulse); otherwise, zero included, the point
    of the line from (-1, min_pulse) to (0, zero_pulse).  So throttle 0
    gives zero_pulse whatever the three pulses are, throttle 1 gives
    max_pulse and throttle -1 gives min_pulse. *)
Theorem PWMThrottle_run_piecewise_linear
    (self : PWMThrottle.t C) (throttle : Q) (tr : trace) :
  exists pulse,
    PWMThrottle.run self throttle tr
    = set_pulse (PWMThrottle.controller self) pulse tr
    /\ (0 < throttle ->
        map_range throttle 0 1 (PWMThrottle.zero_pulse self)
          (PWMThrottle.max_pulse self) = Ok pulse
        /\ pulse == PWMThrottle.zero_pulse self
                    + throttle * (PWMThrottle.max_pulse self
                                  - PWMThrottle.zero_pulse self))
    /\ (throttle <= 0 ->
        map_range throttle (-1) 0 (PWMThrottle.min_pulse self)
          (PWMThrottle.zero_pulse self) = Ok pulse
        /\ pulse == PWMThrottle.min_pulse self
                    + (throttle + 1) * (PWMThrottle.zero_pulse self
                                        - PWMThrottle.min_pulse self))
    /\ (throttle == 0 -> pulse == PWMThrottle.zero_pulse self)
    /\ (throttle == 1 -> pulse == PWMThrottle.max_pulse self)
    /\ (throttle == -1 -> pulse == PWMThrottle.min_pulse self).
Proof.
  eexists. split; [apply PWMThrottle_run_pulse|].
  destruct (Qgtb throttle 0) eqn:E; prop_of_bool;
    repeat split; intros; try reflexivity; try (exfalso; lra);
    match goal with
    | Heq : throttle == _ |- _ => rewrite Heq; field
    | _ => field
    end.
Qed.

(** C4. [PWMSteering.run] hands its controller one pulse, the point at
    [angle] of the line from (-1, left_pulse) to (1, right_pulse), with no
    assumption on which of the two pulses is the larger: angle -1 gives
    left_pulse, angle 1 gives right_pulse and angle 0 the midpoint. *)
Theorem PWMSteering_run_linear
    (self : PWMSteering.t C) (angle : Q) (tr : trace) :
  exists pulse,
    PWMSteering.run self angle tr
    = set_pulse (PWMSteering.controller self) pulse tr
    /\ map_range angle (-1) 1 (PWMSteering.left_pulse self)
         (PWMSteering.right_pulse self) = Ok pulse
    /\ pulse == PWMSteering.left_pulse self
                + (angle + 1) * (PWMSteering.right_pulse self
                                 - PWMSteering.left_pulse self) / 2
    /\ (angle == -1 -> pulse == PWMSteering.left_pulse self)
    /\ (angle == 1 -> pulse == PWMSteering.right_pulse self)
    /\ (angle == 0 ->
        pulse == (PWMSteering.left_pulse self
                  + PWMSteering.right_pulse self) / 2).
Proof.
  eexists. split; [apply PWMSteering_run_pulse|].
  split; [reflexivity|].
  repeat split; intros;
    match goal with
    | Heq : angle == _ |- _ => rewrite Heq; field
    | _ => field
    end.
Qed.

(** C5. For both actuators [shutdown] is the computation [run 0]: from
    any trace the two give the same result, the same call
    of the controller with the same pulse. *)
Theorem shutdown_is_run_zero
    (steer : PWMSteering.t C) (thr : PWMThrottle.t C) (tr : trace) :
  (exists pulse,
      PWMSteering.shutdown steer tr
      = set_pulse (PWMSteering.controller steer) pulse tr
      /\ PWMSteering.run steer 0 tr
         = set_pulse (PWMSteering.controller steer) pulse tr)
  /\ PWMSteering.shutdown steer tr = PWMSteering.run steer 0 tr
  /\ (exists pulse,
         PWMThrottle.shutdown thr tr
         = set_pulse (PWMThrottle.controller thr) pulse tr
         /\ PWMThrottle.run thr 0 tr
            = set_pulse (PWMThrottle.controller thr) pulse tr)
  /\ PWMThrottle.shutdown thr tr = PWMThrottle.run thr 0 tr.
Proof.
  repeat split.
  - eexists. split; [unfold PWMSteering.shutdown|];
      apply PWMSteering_run_pulse.
  - eexists. split; [unfold PWMThrottle.shutdown|];
      apply PWMThrottle_run_pulse.
Qed.

End Pulses.

(** ** PCA9685: bus errors *)

Lemma pwm_writes_app (tr1 tr2 : trace) :
  pwm_writes (tr1 ++ tr2) = pwm_writes tr1 ++ pwm_writes tr2.
Proof.
  induction tr1 as [|ev tr1 IH]; [reflexivity|].
  destruct ev; cbn; now rewrite IH.
Qed.

Lemma sleeps_app (tr1 tr2 : trace) :
  sleeps (tr1 ++ tr2) = sleeps tr1 ++ sleeps tr2.
Proof.
  induction tr1 as [|ev tr1 IH]; [reflexivity|].
  destruct ev; cbn; now rewrite IH.
Qed.

Lemma pwm_position_from_app (chan : Z) (tr1 tr2 : trace) (cur : option Q) :
  pwm_position_from chan cur (tr1 ++ tr2)
  = pwm_position_from chan (pwm_position_from chan cur tr1) tr2.
Proof.
  revert cur. induction tr1 as [|ev tr1 IH]; intros cur; [reflexivity|].
  destruct ev as [c on off [e|] | | | | ]; cbn; apply IH.
Qed.

(** What [set_pulse] does, by what the device answers. *)
Lemma set_pulse_cases (self : PCA9685.t) (pulse : Q) (tr : trace) :
  PCA9685.set_pulse self pulse tr
  = match PCA9685.pwm self tr (PCA9685.channel self) 0 pulse with
    | None =>
        (Ok tt, tr ++ [EvSetPwm (PCA9685.channel self) 0 pulse None])
    | Some (OSError m) =>
        (Ok tt, tr ++ [EvSetPwm (PCA9685.channel self) 0 pulse
                         (Some (OSError m));
                       EvPrint (PCA9685.issue_message (OSError m))])
    | Some e =>
        (Raise e, tr ++ [EvSetPwm (PCA9685.channel self) 0 pulse (Some e)])
    end.
Proof.
  unfold PCA9685.set_pulse, try_except, PCA9685.set_pwm.
  destruct (PCA9685.pwm self tr (PCA9685.channel self) 0 pulse) as [[m|m|m|m]|];
    try reflexivity.
  unfold print, emit. now rewrite <- app_assoc.
Qed.

Lemma set_pulse_writes (self : PCA9685.t) (pulse : Q) (tr : trace) :
  pwm_writes (snd (PCA9685.set_pulse self pulse tr))
  = pwm_writes tr ++ [(PCA9685.channel self, 0%Z, pulse)].
Proof.
  rewrite set_pulse_cases.
  destruct (PCA9685.pwm self tr (PCA9685.channel self) 0 pulse) as [[m|m|m|m]|];
    cbn [snd]; now rewrite pwm_writes_app.
Qed.

Lemma set_pulse_sleeps (self : PCA9685.t) (pulse : Q) (tr : trace) :
  sleeps (snd (PCA9685.set_pulse self pulse tr)) = sleeps tr.
Proof.
  rewrite set_pulse_cases.
  destruct (PCA9685.pwm self tr (PCA9685.channel self) 0 pulse) as [[m|m|m|m]|];
    cbn [snd]; rewrite sleeps_app; cbn; apply app_nil_r.
Qed.

(** A write that raises [OSError] is reported and swallowed. *)
Lemma set_pulse_oserror (self : PCA9685.t) (pulse : Q) (tr : trace) (m : string) :
  PCA9685.pwm self tr (PCA9685.channel self) 0 pulse = Some (OSError m) ->
  PCA9685.set_pulse self pulse tr
  = (Ok tt, tr ++ [EvSetPwm (PCA9685.channel self) 0 pulse (Some (OSError m));
                   EvPrint (PCA9685.issue_message (OSError m))]).
Proof. intros Hw. rewrite set_pulse_cases, Hw. reflexivity. Qed.

Lemma position_after_fault (chan c on : Z) (off : Q) (e : exn) (line : string)
    (tr : trace) :
  pwm_position chan (tr ++ [EvSetPwm c on off (Some e); EvPrint line])
  = pwm_position chan tr.
Proof. unfold pwm_position. now rewrite pwm_position_from_app. Qed.

Lemma set_pulse_degraded (self : PCA9685.t) (pulse : Q) (tr : trace) (m : string) :
  PCA9685.pwm self tr (PCA9685.channel self) 0 pulse = Some (OSError m) ->
  degraded self m tr (PCA9685.set_pulse self pulse tr).
Proof.
  intros Hw. exists pulse. rewrite (set_pulse_oserror _ _ _ _ Hw).
  split; [reflexivity|]. intros chan. apply position_after_fault.
Qed.

(** C6. While the device answers register writes on the driver's channel
    with [OSError], [PCA9685.set_pulse] and [PCA9685.run] return normally
    for every pulse, and so do [PWMSteering.run] and [PWMThrottle.run] over
    that driver for every command: the error is printed, not raised, and no
    channel changes the pulse it holds. *)
Theorem PCA9685_bus_error_degrades
    (self : PCA9685.t) (tr : trace) (m : string) :
  (forall pulse,
      PCA9685.pwm self tr (PCA9685.channel self) 0 pulse = Some (OSError m)) ->
  (forall pulse, degraded self m tr (PCA9685.set_pulse self pulse tr))
  /\ (forall pulse, degraded self m tr (PCA9685.run self pulse tr))
  /\ (forall left_pulse right_pulse angle,
         degraded self m tr
           (PWMSteering.run (PWMSteering.mk self left_pulse right_pulse)
              angle tr))
  /\ (forall max_pulse min_pulse zero_pulse throttle,
         degraded self m tr
           (PWMThrottle.run
              (PWMThrottle.mk self max_pulse min_pulse zero_pulse)
              throttle tr)).
Proof.
  intros Hdown. repeat split; intros.
  - apply set_pulse_degraded, Hdown.
  - apply set_pulse_degraded, Hdown.
  - rewrite PWMSteering_run_pulse. apply set_pulse_degraded, Hdown.
  - rewrite PWMThrottle_run_pulse. apply set_pulse_degraded, Hdown.
Qed.

Lemma PCA9685_bus_error_degrades_witness :
  (forall pulse,
      degraded unplugged "[Errno 121] Remote I/O error" []
        (PCA9685.set_pulse unplugged pulse []))
  /\ (forall pulse,
         degraded unplugged "[Errno 121] Remote I/O error" []
           (PCA9685.run unplugged pulse []))
  /\ (forall left_pulse right_pulse angle,
         degraded unplugged "[Errno 121] Remote I/O error" []
           (PWMSteering.run (PWMSteering.mk unplugged left_pulse right_pulse)
              angle []))
  /\ (forall max_pulse min_pulse zero_pulse throttle,
         degraded unplugged "[Errno 121] Remote I/O error" []
           (PWMThrottle.run
              (PWMThrottle.mk unplugged max_pulse min_pulse zero_pulse)
              throttle [])).
Proof.
  apply (PCA9685_bus_error_degrades unplugged []
           "[Errno 121] Remote I/O error").
  intros pulse. reflexivity.
Defined.

(** Steering straight on the unplugged board: one failed write, one
    printed line, no exception. *)
Example steering_on_unplugged :
  exists pulse,
    PWMSteering.run (PWMSteering.mk unplugged 290 490) 0 []
    = (Ok tt,
       [EvSetPwm 1 0 pulse (Some (OSError "[Errno 121] Remote I/O error"));
        EvPrint "Unexpected issue setting PWM (check wires to motor board): [Errno 121] Remote I/O error"])
    /\ pulse == 390.
Proof. eexists. split; reflexivity. Qed.

(** Only [OSError] is caught: any other exception of the device leaves
    [set_pulse]. *)
Example set_pulse_other_error (chan : Z) (pulse : Q) (m : string) :
  PCA9685.set_pulse (PCA9685.mk (fun _ _ _ _ => Some (OtherError m)) chan)
    pulse []
  = (Raise (OtherError m), [EvSetPwm chan 0 pulse (Some (OtherError m))]).
Proof. reflexivity. Qed.

(** ** PWMThrottle: calibration at construction *)

(** C7. Constructing a [PWMThrottle] over a [PCA9685] attempts exactly
    one register write, of zero_pulse on the driver's channel, and, unless
    the device raises something other than [OSError], follows it with one
    [sleep(1)] and returns the object.  A later [run] adds its own write
    after these and never sleeps. *)
Theorem PWMThrottle_init_calibrates
    (dev : PCA9685.t) (max_pulse min_pulse zero_pulse : Q) (tr : trace) :
  let self := PWMThrottle.mk dev max_pulse min_pulse zero_pulse in
  let r := PWMThrottle.init dev max_pulse min_pulse zero_pulse tr in
  pwm_writes (snd r)
  = pwm_writes tr ++ [(PCA9685.channel dev, 0%Z, zero_pulse)]
  /\ match PCA9685.pwm dev tr (PCA9685.channel dev) 0 zero_pulse with
     | None =>
         r = (Ok self,
              tr ++ [EvSetPwm (PCA9685.channel dev) 0 zero_pulse None;
                     EvSleep 1])
     | Some (OSError m) =>
         r = (Ok self,
              tr ++ [EvSetPwm (PCA9685.channel dev) 0 zero_pulse
                       (Some (OSError m));
                     EvPrint (PCA9685.issue_message (OSError m));
                     EvSleep 1])
     | Some e =>
         r = (Raise e,
              tr ++ [EvSetPwm (PCA9685.channel dev) 0 zero_pulse (Some e)])
     end
  /\ (forall self' tr', r = (Ok self', tr') ->
        self' = self
        /\ sleeps tr' = sleeps tr ++ [1%Z]
        /\ forall throttle,
             sleeps (snd (PWMThrottle.run self' throttle tr')) = sleeps tr'
             /\ exists pulse,
                  pwm_writes (snd (PWMThrottle.run self' throttle tr'))
                  = pwm_writes tr ++ [(PCA9685.channel dev, 0%Z, zero_pulse);
                                      (PCA9685.channel dev, 0%Z, pulse)]).
Proof.
  intros self r.
  assert (Hr : r = match PCA9685.set_pulse dev zero_pulse tr with
                   | (Ok _, tr1) => (Ok self, tr1 ++ [EvSleep 1])
                   | (Raise e, tr1) => (Raise e, tr1)
                   end).
  { subst r. unfold PWMThrottle.init, bind, sleep, emit, ret, set_pulse,
      PCA9685_Controller. cbn [PWMThrottle.controller PWMThrottle.zero_pulse].
    destruct (PCA9685.set_pulse dev zero_pulse tr) as [[[]|e] tr1]; reflexivity. }
  pose proof (set_pulse_writes dev zero_pulse tr) as Hw.
  pose proof (set_pulse_sleeps dev zero_pulse tr) as Hs.
  pose proof (set_pulse_cases dev zero_pulse tr) as Hc.
  destruct (PCA9685.set_pulse dev zero_pulse tr) as [[[]|e] tr1];
    cbn [snd] in Hw, Hs; rewrite Hr; clear Hr r.
  - split; [cbn [snd]; rewrite pwm_writes_app, Hw; cbn; apply app_nil_r|].
    split.
    { destruct (PCA9685.pwm dev tr (PCA9685.channel dev) 0 zero_pulse)
        as [[m|m|m|m]|]; inversion Hc; subst tr1;
        rewrite <- app_assoc; reflexivity. }
    intros self' tr' [= <- <-].
    split; [reflexivity|].
    split; [rewrite sleeps_app, Hs; reflexivity|].
    intros throttle. rewrite PWMThrottle_run_pulse.
    unfold set_pulse, PCA9685_Controller. cbn [PWMThrottle.controller self].
    rewrite set_pulse_sleeps, set_pulse_writes.
    split; [reflexivity|].
    eexists. rewrite pwm_writes_app, Hw. cbn.
    rewrite app_nil_r, <- app_assoc. reflexivity.
  - split; [exact Hw|].
    split.
    { destruct (PCA9685.pwm dev tr (PCA9685.channel dev) 0 zero_pulse)
        as [[m|m|m|m]|]; inversion Hc; subst; reflexivity. }
    intros self' tr' [=].
Qed.

(** The default throttle pulses on a board that answers every write:
    construction, then full throttle. *)
Example throttle_calibrate_then_run :
  let board := PCA9685.mk (fun _ _ _ _ => None) 0 in
  exists self tr pulse,
    PWMThrottle.init board 300 490 350 [] = (Ok self, tr)
    /\ tr = [EvSetPwm 0 0 350 None; EvSleep 1]
    /\ snd (PWMThrottle.run self 1 tr)
       = [EvSetPwm 0 0 350 None; EvSleep 1; EvSetPwm 0 0 pulse None]
    /\ pulse == 300.
Proof.
  do 3 eexists. split; [reflexivity|]. split; [reflexivity|].
  split; reflexivity.
Qed.


(** * Further properties *)

(** ** AMSL293D: what the blending keeps *)

Lemma run_blend (steering throttle : Q) (self : AMSL293D.t) (tr : trace) :
  Qabs steering <= 1 -> Qabs throttle <= 1 ->
  AMSL293D.run steering throttle (self, tr)
  = (Ok tt, (blend self steering throttle,
             tr ++ dispatch_events (blend self steering throttle))).
Proof.
  intros Hs Ht.
  destruct (run_valid steering throttle self tr Hs Ht) as (self' & -> & ->).
  reflexivity.
Qed.

(** Every command is either valid or has a magnitude above 1. *)
Lemma command_cases (steering throttle : Q) :
  (Qabs steering <= 1 /\ Qabs throttle <= 1)
  \/ (1 < Qabs throttle \/ 1 < Qabs steering).
Proof.
  destruct (Qlt_le_dec 1 (Qabs throttle)); [right; now left|].
  destruct (Qlt_le_dec 1 (Qabs steering)); [right; now right|].
  left. now split.
Qed.

Ltac blend_cases steering throttle :=
  unfold blend;
  destruct (Qeq_bool steering 0) eqn:?E0;
  destruct (Qgtb steering 0) eqn:?Es1; destruct (Qltb steering 0) eqn:?Es2;
  destruct (Qgtb throttle 0) eqn:?Et1; destruct (Qltb throttle 0) eqn:?Et2;
  cbn [andb AMSL293D.throttleL AMSL293D.throttleR]; prop_of_bool.

Lemma blend_in_range (self : AMSL293D.t) (steering throttle : Q) :
  Qabs steering <= 1 -> Qabs throttle <= 1 ->
  sides_in_range self -> sides_in_range (blend self steering throttle).
Proof.
  intros Hs Ht [HL HR]. unfold sides_in_range.
  apply Qabs_le_1 in Hs, Ht.
  blend_cases steering throttle;
    first [ split; assumption | split; apply Qabs_le_1; lra ].
Qed.

Lemma percent_bounds (x : Q) :
  Qabs x <= 1 -> (0 <= Qfloor (100 * Qabs x) <= 100)%Z.
Proof.
  intros Hx. pose proof (Qabs_nonneg x) as Hnn. split.
  - change 0%Z with (Qfloor 0). apply Qfloor_resp_le. lra.
  - assert (H100 : 100 * Qabs x <= 100) by lra.
    apply Qfloor_resp_le in H100. exact H100.
Qed.

Lemma percent_zero (x : Q) :
  x == 0 -> Qfloor (100 * Qabs x) = 0%Z /\ Qgtb x 0 = false.
Proof.
  intros Hx. split.
  - rewrite Hx. reflexivity.
  - apply Qgtb_false_iff. lra.
Qed.

(** X1. [AMSL293D.run] keeps both stored side commands within [-1, 1]:
    if they are in range before a call they are in range after it, whatever
    the command (accepted, rejected, or a zero throttle with a turn). *)
Theorem AMSL293D_run_keeps_sides_in_range
    (steering throttle : Q) (self : AMSL293D.t) (tr : trace) :
  sides_in_range self ->
  sides_in_range (fst (snd (AMSL293D.run steering throttle (self, tr)))).
Proof.
  intros Hin.
  destruct (command_cases steering throttle) as [[Hs Ht] | Hbad].
  - rewrite (run_blend _ _ _ _ Hs Ht). cbn [fst snd].
    now apply blend_in_range.
  - destruct (run_invalid steering throttle (self, tr) Hbad) as (msg & -> & _).
    exact Hin.
Qed.

Lemma AMSL293D_run_keeps_sides_in_range_witness :
  sides_in_range
    (fst (snd (AMSL293D.run 1 (1 # 10) (AMSL293D.init, [])))).
Proof.
  apply (AMSL293D_run_keeps_sides_in_range 1 (1 # 10) AMSL293D.init []).
  split; unfold Qle; simpl; lia.
Defined.

(** X2. From an object whose sides are in range, one call of
    [AMSL293D.run] only adds events to the trace, and every speed it
    commands to a motor is a percentage between 0 and 100. *)
Theorem AMSL293D_run_speeds_are_percentages
    (steering throttle : Q) (self : AMSL293D.t) (tr : trace) :
  sides_in_range self ->
  exists evs,
    snd (snd (AMSL293D.run steering throttle (self, tr))) = tr ++ evs
    /\ Forall (fun v => (0 <= v <= 100)%Z) (motor_speeds evs).
Proof.
  intros Hin.
  destruct (command_cases steering throttle) as [[Hs Ht] | Hbad].
  - rewrite (run_blend _ _ _ _ Hs Ht). cbn [fst snd].
    eexists. split; [reflexivity|].
    destruct (blend_in_range self steering throttle Hs Ht Hin) as [HL HR].
    cbn. repeat constructor; apply percent_bounds; assumption.
  - destruct (run_invalid steering throttle (self, tr) Hbad) as (msg & -> & _).
    exists []. split; [now rewrite app_nil_r | constructor].
Qed.

Lemma AMSL293D_run_speeds_are_percentages_witness :
  exists evs,
    snd (snd (AMSL293D.run 1 (1 # 10) (AMSL293D.init, []))) = [] ++ evs
    /\ Forall (fun v => (0 <= v <= 100)%Z) (motor_speeds evs).
Proof.
  apply (AMSL293D_run_speeds_are_percentages 1 (1 # 10) AMSL293D.init []).
  split; unfold Qle; simpl; lia.
Defined.

(** A gentle forward command with full right steering: the right side is
    driven in reverse, faster than the throttle asked for. *)
Example run_sharp_turn :
  snd (snd (AMSL293D.run 1 (1 # 10) (AMSL293D.init, [])))
  = [EvRunDcMotors [DC_Motor_1; DC_Motor_2] 10 true;
     EvRunDcMotor DC_Motor_3 90 false;
     EvRunDcMotor DC_Motor_4 90 true].
Proof. reflexivity. Qed.

(** [blend] by the sign of the steering. *)
Lemma blend_straight (self : AMSL293D.t) (steering throttle : Q) :
  steering == 0 -> blend self steering throttle = AMSL293D.mk throttle throttle.
Proof.
  intros H. unfold blend. now rewrite (Qeq_eq_bool _ _ H).
Qed.

Lemma blend_right (self : AMSL293D.t) (steering throttle : Q) :
  0 < steering ->
  blend self steering throttle
  = if Qgtb throttle 0 then AMSL293D.mk throttle (throttle - steering)
    else if Qltb throttle 0 then AMSL293D.mk throttle (throttle + steering)
    else self.
Proof.
  intros H. unfold blend.
  replace (Qeq_bool steering 0) with false
    by (symmetry; apply Qeq_bool_false_iff; lra).
  replace (Qgtb steering 0) with true by (symmetry; now apply Qgtb_true_iff).
  replace (Qltb steering 0) with false
    by (symmetry; apply Qltb_false_iff; lra).
  cbn [andb]. destruct (Qgtb throttle 0); reflexivity.
Qed.

Lemma blend_left (self : AMSL293D.t) (steering throttle : Q) :
  steering < 0 ->
  blend self steering throttle
  = if Qgtb throttle 0 then AMSL293D.mk (throttle + steering) throttle
    else if Qltb throttle 0 then AMSL293D.mk (throttle - steering) throttle
    else self.
Proof.
  intros H. unfold blend.
  replace (Qeq_bool steering 0) with false
    by (symmetry; apply Qeq_bool_false_iff; lra).
  replace (Qgtb steering 0) with false
    by (symmetry; apply Qgtb_false_iff; lra).
  replace (Qltb steering 0) with true by (symmetry; now apply Qltb_true_iff).
  cbn [andb]. destruct (Qgtb throttle 0); reflexivity.
Qed.

Lemma throttle_sign_pos (throttle : Q) :
  0 < throttle -> Qgtb throttle 0 = true.
Proof. apply Qgtb_true_iff. Qed.

Lemma throttle_sign_neg (throttle : Q) :
  throttle < 0 -> Qgtb throttle 0 = false /\ Qltb throttle 0 = true.
Proof.
  intros H. split; [apply Qgtb_false_iff; lra | now apply Qltb_true_iff].
Qed.

Lemma throttle_sign_zero (throttle : Q) :
  throttle == 0 -> Qgtb throttle 0 = false /\ Qltb throttle 0 = false.
Proof.
  intros H. split; [apply Qgtb_false_iff | apply Qltb_false_iff]; lra.
Qed.

Ltac sign_cases x H := destruct (Q_dec x 0) as [[H | H] | H].

Ltac settle_blend :=
  repeat match goal with
  | H : ?s == 0 |- context [blend _ ?s _] => rewrite (blend_straight _ s _ H)
  | H : 0 < ?s |- context [blend _ ?s _] => rewrite (blend_right _ s _ H)
  | H : ?s < 0 |- context [blend _ ?s _] => rewrite (blend_left _ s _ H)
  end;
  repeat match goal with
  | H : 0 < ?t |- context [Qgtb ?t 0] => rewrite (throttle_sign_pos t H)
  | H : ?t < 0 |- context [Qgtb ?t 0] =>
      rewrite (proj1 (throttle_sign_neg t H)), (proj2 (throttle_sign_neg t H))
  | H : ?t == 0 |- context [Qgtb ?t 0] =>
      rewrite (proj1 (throttle_sign_zero t H)), (proj2 (throttle_sign_zero t H))
  end;
  cbn [AMSL293D.throttleL AMSL293D.throttleR].



(** X4. For an accepted command with a throttle that is not zero,
    negating the steering exchanges the two sides. *)
Theorem AMSL293D_run_mirror
    (steering throttle : Q) (self : AMSL293D.t) (tr : trace) :
  Qabs steering <= 1 -> Qabs throttle <= 1 -> ~ throttle == 0 ->
  let a := fst (snd (AMSL293D.run steering throttle (self, tr))) in
  let b := fst (snd (AMSL293D.run (- steering) throttle (self, tr))) in
  AMSL293D.throttleL b == AMSL293D.throttleR a
  /\ AMSL293D.throttleR b == AMSL293D.throttleL a.
Proof.
  intros Hs Ht Hnz a b. subst a b.
  assert (Hs' : Qabs (- steering) <= 1) by now rewrite Qabs_opp.
  rewrite (run_blend _ _ _ _ Hs Ht), (run_blend _ _ _ _ Hs' Ht).
  cbn [fst snd].
  sign_cases throttle Hsign; [| |contradiction];
    sign_cases steering Hz.
  all: try (assert (Hz' : 0 < - steering) by lra).
  all: try (assert (Hz' : - steering < 0) by lra).
  all: try (assert (Hz' : - steering == 0) by lra).
  all: settle_blend; split; lra.
Qed.

Lemma AMSL293D_run_mirror_witness :
  let a := fst (snd (AMSL293D.run (1 # 4) (1 # 2) (AMSL293D.init, []))) in
  let b := fst (snd (AMSL293D.run (- (1 # 4)) (1 # 2)
                       (AMSL293D.init, []))) in
  AMSL293D.throttleL b == AMSL293D.throttleR a
  /\ AMSL293D.throttleR b == AMSL293D.throttleL a.
Proof.
  apply (AMSL293D_run_mirror (1 # 4) (1 # 2) AMSL293D.init []).
  - unfold Qle. simpl. lia.
  - unfold Qle. simpl. lia.
  - intros H. discriminate H.
Defined.

Lemma blend_idempotent (self : AMSL293D.t) (steering throttle : Q) :
  blend (blend self steering throttle) steering throttle
  = blend self steering throttle.
Proof.
  unfold blend.
  destruct (Qeq_bool steering 0); [reflexivity|].
  destruct (Qgtb steering 0 && Qgtb throttle 0); [reflexivity|].
  destruct (Qltb steering 0 && Qgtb throttle 0); [reflexivity|].
  destruct (Qgtb steering 0 && Qltb throttle 0); [reflexivity|].
  destruct (Qltb steering 0 && Qltb throttle 0); reflexivity.
Qed.

(** X5. Repeating an accepted command leaves the object as the first call
    left it and sends the motors the same commands again. *)
Theorem AMSL293D_run_repeat
    (steering throttle : Q) (self : AMSL293D.t) (tr : trace) :
  Qabs steering <= 1 -> Qabs throttle <= 1 ->
  exists self' evs,
    AMSL293D.run steering throttle (self, tr) = (Ok tt, (self', tr ++ evs))
    /\ AMSL293D.run steering throttle (self', tr ++ evs)
       = (Ok tt, (self', (tr ++ evs) ++ evs)).
Proof.
  intros Hs Ht.
  exists (blend self steering throttle),
         (dispatch_events (blend self steering throttle)).
  split; [now apply run_blend|].
  rewrite (run_blend _ _ _ _ Hs Ht), blend_idempotent. reflexivity.
Qed.

Lemma AMSL293D_run_repeat_witness :
  exists self' evs,
    AMSL293D.run (1 # 4) (1 # 2) (AMSL293D.init, [])
    = (Ok tt, (self', [] ++ evs))
    /\ AMSL293D.run (1 # 4) (1 # 2) (self', [] ++ evs)
       = (Ok tt, (self', ([] ++ evs) ++ evs)).
Proof.
  apply (AMSL293D_run_repeat (1 # 4) (1 # 2) AMSL293D.init []);
    unfold Qle; simpl; lia.
Defined.

(** X6. An object at rest stays at rest under any accepted command with a
    zero throttle: whatever the steering, both sides stay zero and all
    motors are commanded speed 0, so the steering alone never turns the
    vehicle. *)
Theorem AMSL293D_run_no_turn_in_place
    (steering throttle : Q) (self : AMSL293D.t) (tr : trace) :
  Qabs steering <= 1 -> throttle == 0 ->
  AMSL293D.throttleL self == 0 -> AMSL293D.throttleR self == 0 ->
  exists self',
    AMSL293D.run steering throttle (self, tr)
    = (Ok tt, (self', tr ++ left_events 0 false ++ right_events 0 false))
    /\ AMSL293D.throttleL self' == 0 /\ AMSL293D.throttleR self' == 0.
Proof.
  intros Hs Ht HL HR.
  assert (Ht1 : Qabs throttle <= 1) by (apply Qabs_le_1; lra).
  exists (blend self steering throttle).
  rewrite (run_blend _ _ _ _ Hs Ht1).
  assert (Hrest : AMSL293D.throttleL (blend self steering throttle) == 0
                  /\ AMSL293D.throttleR (blend self steering throttle) == 0).
  { sign_cases steering Hz; settle_blend; split; assumption. }
  destruct Hrest as [HL' HR']. split; [|now split].
  unfold dispatch_events.
  destruct (percent_zero _ HL') as [-> ->].
  destruct (percent_zero _ HR') as [-> ->]. reflexivity.
Qed.

Lemma AMSL293D_run_no_turn_in_place_witness :
  exists self',
    AMSL293D.run 1 0 (AMSL293D.init, [])
    = (Ok tt, (self', [] ++ left_events 0 false ++ right_events 0 false))
    /\ AMSL293D.throttleL self' == 0 /\ AMSL293D.throttleR self' == 0.
Proof.
  apply (AMSL293D_run_no_turn_in_place 1 0 AMSL293D.init []).
  - unfold Qle. simpl. lia.
  - reflexivity.
  - reflexivity.
  - reflexivity.
Defined.

(** ** PCA9685: what a write changes *)

(** X7. Whatever the device does, [PCA9685.set_pulse] never lets an
    [OSError] out: if it raises, the exception is the one the device raised
    on that write, and it is not an [OSError]. *)
Theorem PCA9685_set_pulse_raises_only_other
    (self : PCA9685.t) (pulse : Q) (tr : trace) (e : exn) :
  fst (PCA9685.set_pulse self pulse tr) = Raise e ->
  PCA9685.pwm self tr (PCA9685.channel self) 0 pulse = Some e
  /\ forall m, e <> OSError m.
Proof.
  rewrite set_pulse_cases.
  destruct (PCA9685.pwm self tr (PCA9685.channel self) 0 pulse)
    as [[m|m|m|m]|]; cbn [fst]; intros [= <-];
    (split; [reflexivity | intros m'; discriminate]).
Qed.

Lemma PCA9685_set_pulse_raises_only_other_witness :
  PCA9685.pwm (PCA9685.mk (fun _ _ _ _ => Some (OtherError "bad pulse")) 0)
    [] 0 0 350 = Some (OtherError "bad pulse")
  /\ forall m, OtherError "bad pulse" <> OSError m.
Proof.
  apply (PCA9685_set_pulse_raises_only_other
           (PCA9685.mk (fun _ _ _ _ => Some (OtherError "bad pulse")) 0)
           350 [] (OtherError "bad pulse")).
  reflexivity.
Defined.

Lemma position_after_write (chan c on : Z) (off : Q) (tr : trace) :
  pwm_position chan (tr ++ [EvSetPwm c on off None])
  = if Z.eqb c chan then Some off else pwm_position chan tr.
Proof.
  unfold pwm_position. rewrite pwm_position_from_app. cbn.
  destruct (Z.eqb c chan); reflexivity.
Qed.

(** X8. A write that the device takes returns normally, makes the
    driver's channel hold the new pulse and leaves every other channel
    with the pulse it held. *)
Theorem PCA9685_set_pulse_frame
    (self : PCA9685.t) (pulse : Q) (tr : trace) :
  PCA9685.pwm self tr (PCA9685.channel self) 0 pulse = None ->
  let r := PCA9685.set_pulse self pulse tr in
  fst r = Ok tt
  /\ pwm_position (PCA9685.channel self) (snd r) = Some pulse
  /\ forall chan, chan <> PCA9685.channel self ->
       pwm_position chan (snd r) = pwm_position chan tr.
Proof.
  intros Hw r. subst r. rewrite set_pulse_cases, Hw. cbn [fst snd].
  split; [reflexivity|]. split.
  - rewrite position_after_write. now rewrite Z.eqb_refl.
  - intros chan Hne. rewrite position_after_write.
    destruct (Z.eqb_spec (PCA9685.channel self) chan); [|reflexivity].
    now subst chan.
Qed.

Lemma PCA9685_set_pulse_frame_witness :
  let r := PCA9685.set_pulse (healthy 1) 390 [EvSetPwm 0 0 350 None] in
  fst r = Ok tt
  /\ pwm_position 1 (snd r) = Some 390
  /\ forall chan, chan <> 1%Z ->
       pwm_position chan (snd r) = pwm_position chan [EvSetPwm 0 0 350 None].
Proof.
  apply (PCA9685_set_pulse_frame (healthy 1) 390 [EvSetPwm 0 0 350 None]).
  reflexivity.
Defined.

(** X9. A steering actuator and a throttle actuator on two different
    channels of boards that take every write do not disturb each other:
    after one steering command and one throttle command each channel holds
    the pulse of its own actuator. *)
Theorem steering_and_throttle_channels
    (a b : Z) (left_pulse right_pulse max_pulse min_pulse zero_pulse : Q)
    (angle throttle : Q) (tr : trace) :
  a <> b ->
  let steer := PWMSteering.mk (healthy a) left_pulse right_pulse in
  let thr := PWMThrottle.mk (healthy b) max_pulse min_pulse zero_pulse in
  let tr1 := snd (PWMSteering.run steer angle tr) in
  let tr2 := snd (PWMThrottle.run thr throttle tr1) in
  exists p q,
    pwm_position a tr2 = Some p /\ pwm_position b tr2 = Some q
    /\ map_range angle (-1) 1 left_pulse right_pulse = Ok p
    /\ (if Qgtb throttle 0
        then map_range throttle 0 1 zero_pulse max_pulse
        else map_range throttle (-1) 0 min_pulse zero_pulse) = Ok q.
Proof.
  intros Hab steer thr tr1 tr2. subst tr2 tr1 thr steer.
  rewrite PWMThrottle_run_pulse, PWMSteering_run_pulse.
  unfold set_pulse, PCA9685_Controller.
  cbn [PWMSteering.controller PWMThrottle.controller].
  rewrite !set_pulse_cases. cbn [healthy PCA9685.pwm PCA9685.channel snd].
  do 2 eexists.
  rewrite !position_after_write, !Z.eqb_refl.
  replace (Z.eqb b a) with false by (symmetry; apply Z.eqb_neq; congruence).
  split; [reflexivity|]. split; [reflexivity|]. split; [reflexivity|].
  cbn [PWMThrottle.zero_pulse PWMThrottle.max_pulse PWMThrottle.min_pulse].
  destruct (Qgtb throttle 0); reflexivity.
Qed.

Lemma steering_and_throttle_channels_witness :
  let steer := PWMSteering.mk (healthy 1) 290 490 in
  let thr := PWMThrottle.mk (healthy 0) 300 490 350 in
  let tr1 := snd (PWMSteering.run steer (1 # 2) []) in
  let tr2 := snd (PWMThrottle.run thr (- (1 # 2)) tr1) in
  exists p q,
    pwm_position 1 tr2 = Some p /\ pwm_position 0 tr2 = Some q
    /\ map_range (1 # 2) (-1) 1 290 490 = Ok p
    /\ (if Qgtb (- (1 # 2)) 0
        then map_range (- (1 # 2)) 0 1 350 300
        else map_range (- (1 # 2)) (-1) 0 490 350) = Ok q.
Proof.
  apply (steering_and_throttle_channels 1 0 290 490 300 490 350
           (1 # 2) (- (1 # 2)) []).
  discriminate.
Defined.

(** ** PWMSteering and PWMThrottle: range and order of the pulses *)

Lemma segment_between (lo hi k : Q) :
  0 <= k <= 1 ->
  (lo <= hi -> lo <= lo + k * (hi - lo) <= hi)
  /\ (hi <= lo -> hi <= lo + k * (hi - lo) <= lo).
Proof.
  intros [Hk0 Hk1]. split; intros Hord; split; nra.
Qed.

Lemma segment_monotone (lo hi k1 k2 : Q) :
  k1 <= k2 ->
  (lo <= hi -> lo + k1 * (hi - lo) <= lo + k2 * (hi - lo))
  /\ (hi <= lo -> lo + k2 * (hi - lo) <= lo + k1 * (hi - lo)).
Proof.
  intros Hk. split; intros Hord; nra.
Qed.

Section PulseRanges.

Context {C : Type} `{Controller C}.

(** X10. For an angle within [-1, 1] the pulse [PWMSteering.run] hands
    to its controller lies between left_pulse and right_pulse, whichever of
    the two is the larger. *)
Theorem PWMSteering_run_pulse_between
    (self : PWMSteering.t C) (angle : Q) (tr : trace) :
  Qabs angle <= 1 ->
  exists pulse,
    PWMSteering.run self angle tr
    = set_pulse (PWMSteering.controller self) pulse tr
    /\ map_range angle (-1) 1 (PWMSteering.left_pulse self)
         (PWMSteering.right_pulse self) = Ok pulse
    /\ (PWMSteering.left_pulse self <= PWMSteering.right_pulse self ->
        PWMSteering.left_pulse self <= pulse <= PWMSteering.right_pulse self)
    /\ (PWMSteering.right_pulse self <= PWMSteering.left_pulse self ->
        PWMSteering.right_pulse self <= pulse <= PWMSteering.left_pulse self).
Proof.
  intros Ha. apply Qabs_le_1 in Ha.
  eexists. split; [apply PWMSteering_run_pulse|]. split; [reflexivity|].
  set (l := PWMSteering.left_pulse self).
  set (r := PWMSteering.right_pulse self).
  assert (Hk : 0 <= (1 # 2) * (angle + 1) <= 1) by (split; lra).
  destruct (segment_between l r _ Hk) as [Hup Hdown].
  assert (Hp : l + (angle - -1) * (r - l) / (1 - -1)
               == l + (1 # 2) * (angle + 1) * (r - l)) by field.
  split; intros Hord; rewrite Hp; auto.
Qed.

(** X11. The steering pulse follows the angle: when
    left_pulse <= right_pulse a larger angle never gives a smaller pulse,
    and when right_pulse <= left_pulse it never gives a larger one. *)
Theorem PWMSteering_run_pulse_monotone
    (self : PWMSteering.t C) (angle1 angle2 : Q) (tr : trace) :
  angle1 <= angle2 ->
  exists pulse1 pulse2,
    PWMSteering.run self angle1 tr
    = set_pulse (PWMSteering.controller self) pulse1 tr
    /\ PWMSteering.run self angle2 tr
       = set_pulse (PWMSteering.controller self) pulse2 tr
    /\ map_range angle1 (-1) 1 (PWMSteering.left_pulse self)
         (PWMSteering.right_pulse self) = Ok pulse1
    /\ map_range angle2 (-1) 1 (PWMSteering.left_pulse self)
         (PWMSteering.right_pulse self) = Ok pulse2
    /\ (PWMSteering.left_pulse self <= PWMSteering.right_pulse self ->
        pulse1 <= pulse2)
    /\ (PWMSteering.right_pulse self <= PWMSteering.left_pulse self ->
        pulse2 <= pulse1).
Proof.
  intros Ha.
  do 2 eexists. split; [apply PWMSteering_run_pulse|].
  split; [apply PWMSteering_run_pulse|].
  split; [reflexivity|]. split; [reflexivity|].
  set (l := PWMSteering.left_pulse self).
  set (r := PWMSteering.right_pulse self).
  assert (Hk : (1 # 2) * (angle1 + 1) <= (1 # 2) * (angle2 + 1)) by lra.
  destruct (segment_monotone l r _ _ Hk) as [Hup Hdown].
  assert (Hp : forall a, l + (a - -1) * (r - l) / (1 - -1)
                         == l + (1 # 2) * (a + 1) * (r - l))
    by (intros; field).
  split; intros Hord; rewrite !Hp; auto.
Qed.

Lemma throttle_pulse_forward (z mx t : Q) :
  z + (t - 0) * (mx - z) / (1 - 0) == z + t * (mx - z).
Proof. field. Qed.

Lemma throttle_pulse_reverse (mn z t : Q) :
  mn + (t - -1) * (z - mn) / (0 - -1) == mn + (t + 1) * (z - mn).
Proof. field. Qed.

(** The pulse of [PWMThrottle.run], with the call that produces it. *)
Lemma PWMThrottle_run_pulse_pinned
    (self : PWMThrottle.t C) (throttle : Q) (tr : trace) :
  exists pulse,
    PWMThrottle.run self throttle tr
    = set_pulse (PWMThrottle.controller self) pulse tr
    /\ (if Qgtb throttle 0
        then map_range throttle 0 1 (PWMThrottle.zero_pulse self)
               (PWMThrottle.max_pulse self)
        else map_range throttle (-1) 0 (PWMThrottle.min_pulse self)
               (PWMThrottle.zero_pulse self)) = Ok pulse
    /\ (0 < throttle ->
        pulse == PWMThrottle.zero_pulse self
                 + throttle * (PWMThrottle.max_pulse self
                               - PWMThrottle.zero_pulse self))
    /\ (throttle <= 0 ->
        pulse == PWMThrottle.min_pulse self
                 + (throttle + 1) * (PWMThrottle.zero_pulse self
                                     - PWMThrottle.min_pulse self)).
Proof.
  eexists. split; [apply PWMThrottle_run_pulse|].
  destruct (Qgtb throttle 0) eqn:E; prop_of_bool;
    (split; [reflexivity|]); split; intros Hsign;
    first [ apply throttle_pulse_forward | apply throttle_pulse_reverse
          | exfalso; lra ].
Qed.

(** X12. For a throttle within [-1, 1] the pulse [PWMThrottle.run] hands
    to its controller stays on its segment: between zero_pulse and
    max_pulse for a positive throttle, between min_pulse and zero_pulse
    otherwise, whichever end of the segment is the larger. *)
Theorem PWMThrottle_run_pulse_between
    (self : PWMThrottle.t C) (throttle : Q) (tr : trace) :
  Qabs throttle <= 1 ->
  exists pulse,
    PWMThrottle.run self throttle tr
    = set_pulse (PWMThrottle.controller self) pulse tr
    /\ (if Qgtb throttle 0
        then map_range throttle 0 1 (PWMThrottle.zero_pulse self)
               (PWMThrottle.max_pulse self)
        else map_range throttle (-1) 0 (PWMThrottle.min_pulse self)
               (PWMThrottle.zero_pulse self)) = Ok pulse
    /\ (0 < throttle ->
        (PWMThrottle.zero_pulse self <= PWMThrottle.max_pulse self ->
         PWMThrottle.zero_pulse self <= pulse <= PWMThrottle.max_pulse self)
        /\ (PWMThrottle.max_pulse self <= PWMThrottle.zero_pulse self ->
            PWMThrottle.max_pulse self <= pulse
            <= PWMThrottle.zero_pulse self))
    /\ (throttle <= 0 ->
        (PWMThrottle.min_pulse self <= PWMThrottle.zero_pulse self ->
         PWMThrottle.min_pulse self <= pulse <= PWMThrottle.zero_pulse self)
        /\ (PWMThrottle.zero_pulse self <= PWMThrottle.min_pulse self ->
            PWMThrottle.zero_pulse self <= pulse
            <= PWMThrottle.min_pulse self)).
Proof.
  intros Ht. apply Qabs_le_1 in Ht.
  destruct (PWMThrottle_run_pulse_pinned self throttle tr)
    as (pulse & Hrun & Hmap & Hfwd & Hrev).
  exists pulse. split; [exact Hrun|]. split; [exact Hmap|].
  split; intros Hsign.
  - rewrite (Hfwd Hsign). apply segment_between. lra.
  - rewrite (Hrev Hsign). apply segment_between. lra.
Qed.

(** X13. Across both segments the throttle pulse follows the throttle:
    when min_pulse <= zero_pulse <= max_pulse a larger throttle never gives
    a smaller pulse, and when max_pulse <= zero_pulse <= min_pulse it never
    gives a larger one. *)
Theorem PWMThrottle_run_pulse_monotone
    (self : PWMThrottle.t C) (throttle1 throttle2 : Q) (tr : trace) :
  throttle1 <= throttle2 ->
  exists pulse1 pulse2,
    PWMThrottle.run self throttle1 tr
    = set_pulse (PWMThrottle.controller self) pulse1 tr
    /\ PWMThrottle.run self throttle2 tr
       = set_pulse (PWMThrottle.controller self) pulse2 tr
    /\ (if Qgtb throttle1 0
        then map_range throttle1 0 1 (PWMThrottle.zero_pulse self)
               (PWMThrottle.max_pulse self)
        else map_range throttle1 (-1) 0 (PWMThrottle.min_pulse self)
               (PWMThrottle.zero_pulse self)) = Ok pulse1
    /\ (if Qgtb throttle2 0
        then map_range throttle2 0 1 (PWMThrottle.zero_pulse self)
               (PWMThrottle.max_pulse self)
        else map_range throttle2 (-1) 0 (PWMThrottle.min_pulse self)
               (PWMThrottle.zero_pulse self)) = Ok pulse2
    /\ (PWMThrottle.min_pulse self <= PWMThrottle.zero_pulse self ->
        PWMThrottle.zero_pulse self <= PWMThrottle.max_pulse self ->
        pulse1 <= pulse2)
    /\ (PWMThrottle.max_pulse self <= PWMThrottle.zero_pulse self ->
        PWMThrottle.zero_pulse self <= PWMThrottle.min_pulse self ->
        pulse2 <= pulse1).
Proof.
  intros Hle.
  destruct (PWMThrottle_run_pulse_pinned self throttle1 tr)
    as (p1 & Hrun1 & Hmap1 & Hfwd1 & Hrev1).
  destruct (PWMThrottle_run_pulse_pinned self throttle2 tr)
    as (p2 & Hrun2 & Hmap2 & Hfwd2 & Hrev2).
  exists p1, p2. repeat (split; [assumption|]).
  set (mn := PWMThrottle.min_pulse self) in *.
  set (z := PWMThrottle.zero_pulse self) in *.
  set (mx := PWMThrottle.max_pulse self) in *.
  destruct (Qlt_le_dec 0 throttle1) as [H1 | H1];
    destruct (Qlt_le_dec 0 throttle2) as [H2 | H2];
    try (exfalso; lra);
    first [ rewrite (Hfwd1 H1) | rewrite (Hrev1 H1) ];
    first [ rewrite (Hfwd2 H2) | rewrite (Hrev2 H2) ];
    split; intros Ha Hb; nra.
Qed.

(** X14. Neither PWM actuator validates or clamps its command: beyond 1
    the pulse goes beyond the end pulse, past right_pulse for the steering
    and past max_pulse for the throttle, on the side away from the other
    end of the segment. *)
Theorem PWM_run_extrapolates
    (steer : PWMSteering.t C) (thr : PWMThrottle.t C) (v : Q) (tr : trace) :
  1 < v ->
  exists sp tp,
    PWMSteering.run steer v tr
    = set_pulse (PWMSteering.controller steer) sp tr
    /\ map_range v (-1) 1 (PWMSteering.left_pulse steer)
         (PWMSteering.right_pulse steer) = Ok sp
    /\ PWMThrottle.run thr v tr
       = set_pulse (PWMThrottle.controller thr) tp tr
    /\ map_range v 0 1 (PWMThrottle.zero_pulse thr)
         (PWMThrottle.max_pulse thr) = Ok tp
    /\ (PWMSteering.left_pulse steer < PWMSteering.right_pulse steer ->
        PWMSteering.right_pulse steer < sp)
    /\ (PWMSteering.right_pulse steer < PWMSteering.left_pulse steer ->
        sp < PWMSteering.right_pulse steer)
    /\ (PWMThrottle.zero_pulse thr < PWMThrottle.max_pulse thr ->
        PWMThrottle.max_pulse thr < tp)
    /\ (PWMThrottle.max_pulse thr < PWMThrottle.zero_pulse thr ->
        tp < PWMThrottle.max_pulse thr).
Proof.
  intros Hv.
  destruct (PWMThrottle_run_pulse_pinned thr v tr)
    as (tp & Hrun & Hmap & Hfwd & _).
  assert (Hpos : 0 < v) by lra.
  rewrite (throttle_sign_pos v Hpos) in Hmap.
  eexists. exists tp.
  split; [apply PWMSteering_run_pulse|]. split; [reflexivity|].
  split; [exact Hrun|]. split; [exact Hmap|].
  set (l := PWMSteering.left_pulse steer).
  set (r := PWMSteering.right_pulse steer).
  assert (Hp : l + (v - -1) * (r - l) / (1 - -1)
               == l + (1 # 2) * (v + 1) * (r - l)) by field.
  repeat split; intros Hord;
    first [ rewrite Hp | rewrite (Hfwd Hpos) ]; nra.
Qed.

End PulseRanges.

Lemma PWMSteering_run_pulse_between_witness :
  exists pulse,
    PWMSteering.run (PWMSteering.mk (healthy 1) 290 490) (1 # 2) []
    = set_pulse (healthy 1) pulse []
    /\ map_range (1 # 2) (-1) 1 290 490 = Ok pulse
    /\ (290 <= 490 -> 290 <= pulse <= 490)
    /\ (490 <= 290 -> 490 <= pulse <= 290).
Proof.
  apply (PWMSteering_run_pulse_between
           (PWMSteering.mk (healthy 1) 290 490) (1 # 2) []).
  unfold Qle. simpl. lia.
Defined.

Lemma PWMSteering_run_pulse_monotone_witness :
  exists pulse1 pulse2,
    PWMSteering.run (PWMSteering.mk (healthy 1) 290 490) (- (1 # 2)) []
    = set_pulse (healthy 1) pulse1 []
    /\ PWMSteering.run (PWMSteering.mk (healthy 1) 290 490) (1 # 2) []
       = set_pulse (healthy 1) pulse2 []
    /\ map_range (- (1 # 2)) (-1) 1 290 490 = Ok pulse1
    /\ map_range (1 # 2) (-1) 1 290 490 = Ok pulse2
    /\ (290 <= 490 -> pulse1 <= pulse2)
    /\ (490 <= 290 -> pulse2 <= pulse1).
Proof.
  apply (PWMSteering_run_pulse_monotone
           (PWMSteering.mk (healthy 1) 290 490) (- (1 # 2)) (1 # 2) []).
  unfold Qle. simpl. lia.
Defined.

Lemma PWMThrottle_run_pulse_between_witness :
  exists pulse,
    PWMThrottle.run (PWMThrottle.mk (healthy 0) 300 490 350) (1 # 2) []
    = set_pulse (healthy 0) pulse []
    /\ (if Qgtb (1 # 2) 0
        then map_range (1 # 2) 0 1 350 300
        else map_range (1 # 2) (-1) 0 490 350) = Ok pulse
    /\ (0 < 1 # 2 ->
        (350 <= 300 -> 350 <= pulse <= 300)
        /\ (300 <= 350 -> 300 <= pulse <= 350))
    /\ (1 # 2 <= 0 ->
        (490 <= 350 -> 490 <= pulse <= 350)
        /\ (350 <= 490 -> 350 <= pulse <= 490)).
Proof.
  apply (PWMThrottle_run_pulse_between
           (PWMThrottle.mk (healthy 0) 300 490 350) (1 # 2) []).
  unfold Qle. simpl. lia.
Defined.

Lemma PWMThrottle_run_pulse_monotone_witness :
  exists pulse1 pulse2,
    PWMThrottle.run (PWMThrottle.mk (healthy 0) 300 490 350) (- (1 # 2)) []
    = set_pulse (healthy 0) pulse1 []
    /\ PWMThrottle.run (PWMThrottle.mk (healthy 0) 300 490 350) (1 # 2) []
       = set_pulse (healthy 0) pulse2 []
    /\ (if Qgtb (- (1 # 2)) 0
        then map_range (- (1 # 2)) 0 1 350 300
        else map_range (- (1 # 2)) (-1) 0 490 350) = Ok pulse1
    /\ (if Qgtb (1 # 2) 0
        then map_range (1 # 2) 0 1 350 300
        else map_range (1 # 2) (-1) 0 490 350) = Ok pulse2
    /\ (490 <= 350 -> 350 <= 300 -> pulse1 <= pulse2)
    /\ (300 <= 350 -> 350 <= 490 -> pulse2 <= pulse1).
Proof.
  apply (PWMThrottle_run_pulse_monotone
           (PWMThrottle.mk (healthy 0) 300 490 350) (- (1 # 2)) (1 # 2) []).
  unfold Qle. simpl. lia.
Defined.

Lemma PWM_run_extrapolates_witness :
  exists sp tp,
    PWMSteering.run (PWMSteering.mk (healthy 1) 290 490) 2 []
    = set_pulse (healthy 1) sp []
    /\ map_range 2 (-1) 1 290 490 = Ok sp
    /\ PWMThrottle.run (PWMThrottle.mk (healthy 0) 300 490 350) 2 []
       = set_pulse (healthy 0) tp []
    /\ map_range 2 0 1 350 300 = Ok tp
    /\ (290 < 490 -> 490 < sp)
    /\ (490 < 290 -> sp < 490)
    /\ (350 < 300 -> 300 < tp)
    /\ (300 < 350 -> tp < 300).
Proof.
  apply (PWM_run_extrapolates
           (PWMSteering.mk (healthy 1) 290 490)
           (PWMThrottle.mk (healthy 0) 300 490 350) 2 []).
  unfold Qlt. simpl. lia.
Defined.

(** The default pulses, commanded at twice full throttle and twice full
    right: both writes go through, outside the configured pulses. *)
Example pwm_beyond_full :
  exists sp tp,
    snd (PWMSteering.run (PWMSteering.mk (healthy 1) 290 490) 2 [])
    = [EvSetPwm 1 0 sp None]
    /\ snd (PWMThrottle.run (PWMThrottle.mk (healthy 0) 300 490 350) 2 [])
       = [EvSetPwm 0 0 tp None]
    /\ sp == 590 /\ tp == 250.
Proof. do 2 eexists. repeat split; reflexivity. Qed.

(** ** Adafruit_DCMotor_Hat *)

Lemma hat_map_range (speed : Q) :
  exists x, map_range (Qabs speed) (-1) 1 (-255) 255 = Ok x
            /\ x == 255 * Qabs speed.
Proof. eexists. split; [reflexivity | field]. Qed.

Lemma hat_run_invalid (speed : Q)
    (s : Adafruit_DCMotor_Hat.t * list Adafruit_DCMotor_Hat.hat_event) :
  1 < Qabs speed ->
  Adafruit_DCMotor_Hat.run speed s
  = (Raise (ValueError "Speed must be between 1(forward) and -1(reverse)"), s).
Proof.
  intros H. unfold Adafruit_DCMotor_Hat.run.
  apply bind_raise. rewrite (guard_true _ H). reflexivity.
Qed.

Lemma hat_run_valid (speed : Q) (self : Adafruit_DCMotor_Hat.t)
    (tr : list Adafruit_DCMotor_Hat.hat_event) :
  Qabs speed <= 1 ->
  Adafruit_DCMotor_Hat.run speed (self, tr)
  = (Ok tt,
     (Adafruit_DCMotor_Hat.mk (Adafruit_DCMotor_Hat.motor_num self) speed
        (Qfloor (255 * Qabs speed)),
      tr ++ [Adafruit_DCMotor_Hat.EvMotorRun
               (Adafruit_DCMotor_Hat.motor_num self)
               (if Qgtb speed 0 then Adafruit_DCMotor_Hat.FORWARD
                else Adafruit_DCMotor_Hat.BACKWARD);
             Adafruit_DCMotor_Hat.EvSetSpeed
               (Adafruit_DCMotor_Hat.motor_num self)
               (Qfloor (255 * Qabs speed))])).
Proof.
  intros H. unfold Adafruit_DCMotor_Hat.run.
  unfold bind at 1. rewrite (guard_false _ H). cbn [when ret].
  erewrite bind_ok by reflexivity.
  destruct (hat_map_range speed) as (x & Hx & Hv).
  unfold bind at 1, lift. rewrite Hx.
  assert (Hint : int x = Qfloor (255 * Qabs speed)).
  { rewrite int_nonneg_floor.
    - now rewrite Hv.
    - rewrite Hv. pose proof (Qabs_nonneg speed). lra. }
  rewrite Hint.
  erewrite bind_ok by reflexivity.
  generalize (Qfloor (255 * Qabs speed)). intros v.
  unfold bind, Adafruit_DCMotor_Hat.motor_run, Adafruit_DCMotor_Hat.get,
    Adafruit_DCMotor_Hat.motor_setSpeed, Adafruit_DCMotor_Hat.set_throttle,
    Adafruit_DCMotor_Hat.set_speed.
  destruct (Qgtb speed 0);
    cbn [fst snd Adafruit_DCMotor_Hat.motor_num Adafruit_DCMotor_Hat.throttle
         Adafruit_DCMotor_Hat.speed];
    rewrite <- app_assoc; reflexivity.
Qed.

(** X15. A speed of magnitude above 1 makes [Adafruit_DCMotor_Hat.run]
    raise [ValueError] before it stores anything or calls the motor: the
    fields [speed] and [throttle] and the calls made so far are
    unchanged. *)
Theorem Adafruit_DCMotor_Hat_run_invalid_atomic
    (speed : Q) (self : Adafruit_DCMotor_Hat.t)
    (tr : list Adafruit_DCMotor_Hat.hat_event) :
  1 < Qabs speed ->
  let r := Adafruit_DCMotor_Hat.run speed (self, tr) in
  (exists msg, fst r = Raise (ValueError msg))
  /\ fst (snd r) = self
  /\ snd (snd r) = tr.
Proof.
  intros H r. subst r. rewrite (hat_run_invalid _ _ H). cbn [fst snd].
  repeat split. eexists. reflexivity.
Qed.

Lemma Adafruit_DCMotor_Hat_run_invalid_atomic_witness :
  let r := Adafruit_DCMotor_Hat.run (3 # 2)
             (Adafruit_DCMotor_Hat.mk 1 (1 # 2) 127, []) in
  (exists msg, fst r = Raise (ValueError msg))
  /\ fst (snd r) = Adafruit_DCMotor_Hat.mk 1 (1 # 2) 127
  /\ snd (snd r) = [].
Proof.
  apply (Adafruit_DCMotor_Hat_run_invalid_atomic (3 # 2)
           (Adafruit_DCMotor_Hat.mk 1 (1 # 2) 127) []).
  unfold Qlt. simpl. lia.
Defined.

(** X16. For a speed within [-1, 1], [Adafruit_DCMotor_Hat.run] stores
    the speed as given and, as [throttle], the whole part of
    [255 * |speed|], a value between 0 and 255; it then tells the motor the
    direction, FORWARD exactly when the speed is positive and BACKWARD
    otherwise (zero included), and after that the throttle. *)
Theorem Adafruit_DCMotor_Hat_run_valid
    (speed : Q) (self : Adafruit_DCMotor_Hat.t)
    (tr : list Adafruit_DCMotor_Hat.hat_event) :
  Qabs speed <= 1 ->
  exists v cmd,
    Adafruit_DCMotor_Hat.run speed (self, tr)
    = (Ok tt,
       (Adafruit_DCMotor_Hat.mk (Adafruit_DCMotor_Hat.motor_num self) speed v,
        tr ++ [Adafruit_DCMotor_Hat.EvMotorRun
                 (Adafruit_DCMotor_Hat.motor_num self) cmd;
               Adafruit_DCMotor_Hat.EvSetSpeed
                 (Adafruit_DCMotor_Hat.motor_num self) v]))
    /\ (0 <= v <= 255)%Z
    /\ inject_Z v <= 255 * Qabs speed < inject_Z v + 1
    /\ (0 < speed -> cmd = Adafruit_DCMotor_Hat.FORWARD)
    /\ (speed <= 0 -> cmd = Adafruit_DCMotor_Hat.BACKWARD).
Proof.
  intros H. do 2 eexists. split; [apply (hat_run_valid _ _ _ H)|].
  pose proof (Qabs_nonneg speed) as Hnn.
  split.
  { split.
    - change 0%Z with (Qfloor 0). apply Qfloor_resp_le. lra.
    - assert (H255 : 255 * Qabs speed <= 255) by lra.
      apply Qfloor_resp_le in H255. exact H255. }
  split.
  { split; [apply Qfloor_le|].
    pose proof (Qlt_floor (255 * Qabs speed)) as Hlt.
    rewrite inject_Z_plus in Hlt. exact Hlt. }
  split; intros Hsign.
  - now rewrite (throttle_sign_pos _ Hsign).
  - replace (Qgtb speed 0) with false
      by (symmetry; now apply Qgtb_false_iff).
    reflexivity.
Qed.

Lemma Adafruit_DCMotor_Hat_run_valid_witness :
  exists v cmd,
    Adafruit_DCMotor_Hat.run 0 (Adafruit_DCMotor_Hat.mk 1 (1 # 2) 127, [])
    = (Ok tt,
       (Adafruit_DCMotor_Hat.mk 1 0 v,
        [] ++ [Adafruit_DCMotor_Hat.EvMotorRun 1 cmd;
               Adafruit_DCMotor_Hat.EvSetSpeed 1 v]))
    /\ (0 <= v <= 255)%Z
    /\ inject_Z v <= 255 * Qabs 0 < inject_Z v + 1
    /\ (0 < 0 -> cmd = Adafruit_DCMotor_Hat.FORWARD)
    /\ (0 <= 0 -> cmd = Adafruit_DCMotor_Hat.BACKWARD).
Proof.
  apply (Adafruit_DCMotor_Hat_run_valid 0
           (Adafruit_DCMotor_Hat.mk 1 (1 # 2) 127) []).
  unfold Qle. simpl. lia.
Defined.

(** X17. For a speed within [-1, 1] that is not zero, the opposite speed
    gives the motor the same throttle and the other direction. *)
Theorem Adafruit_DCMotor_Hat_run_opposite
    (speed : Q) (self : Adafruit_DCMotor_Hat.t)
    (tr : list Adafruit_DCMotor_Hat.hat_event) :
  Qabs speed <= 1 -> ~ speed == 0 ->
  exists v cmd cmd',
    snd (snd (Adafruit_DCMotor_Hat.run speed (self, tr)))
    = tr ++ [Adafruit_DCMotor_Hat.EvMotorRun
               (Adafruit_DCMotor_Hat.motor_num self) cmd;
             Adafruit_DCMotor_Hat.EvSetSpeed
               (Adafruit_DCMotor_Hat.motor_num self) v]
    /\ snd (snd (Adafruit_DCMotor_Hat.run (- speed) (self, tr)))
       = tr ++ [Adafruit_DCMotor_Hat.EvMotorRun
                  (Adafruit_DCMotor_Hat.motor_num self) cmd';
                Adafruit_DCMotor_Hat.EvSetSpeed
                  (Adafruit_DCMotor_Hat.motor_num self) v]
    /\ ((cmd = Adafruit_DCMotor_Hat.FORWARD
         /\ cmd' = Adafruit_DCMotor_Hat.BACKWARD)
        \/ (cmd = Adafruit_DCMotor_Hat.BACKWARD
            /\ cmd' = Adafruit_DCMotor_Hat.FORWARD)).
Proof.
  intros H Hnz.
  assert (H' : Qabs (- speed) <= 1) by now rewrite Qabs_opp.
  rewrite (hat_run_valid _ _ _ H), (hat_run_valid _ _ _ H'). cbn [fst snd].
  assert (Hv : Qfloor (255 * Qabs (- speed)) = Qfloor (255 * Qabs speed))
    by (apply Qfloor_comp; now rewrite Qabs_opp).
  rewrite Hv. do 3 eexists. split; [reflexivity|]. split; [reflexivity|].
  sign_cases speed Hz; [| |contradiction].
  - right. destruct (throttle_sign_neg _ Hz) as [-> _].
    rewrite throttle_sign_pos by lra. now split.
  - left. rewrite (throttle_sign_pos _ Hz).
    replace (Qgtb (- speed) 0) with false
      by (symmetry; apply Qgtb_false_iff; lra).
    now split.
Qed.

Lemma Adafruit_DCMotor_Hat_run_opposite_witness :
  exists v cmd cmd',
    snd (snd (Adafruit_DCMotor_Hat.run (1 # 2)
                (Adafruit_DCMotor_Hat.mk 1 0 0, [])))
    = [] ++ [Adafruit_DCMotor_Hat.EvMotorRun 1 cmd;
             Adafruit_DCMotor_Hat.EvSetSpeed 1 v]
    /\ snd (snd (Adafruit_DCMotor_Hat.run (- (1 # 2))
                   (Adafruit_DCMotor_Hat.mk 1 0 0, [])))
       = [] ++ [Adafruit_DCMotor_Hat.EvMotorRun 1 cmd';
                Adafruit_DCMotor_Hat.EvSetSpeed 1 v]
    /\ ((cmd = Adafruit_DCMotor_Hat.FORWARD
         /\ cmd' = Adafruit_DCMotor_Hat.BACKWARD)
        \/ (cmd = Adafruit_DCMotor_Hat.BACKWARD
            /\ cmd' = Adafruit_DCMotor_Hat.FORWARD)).
Proof.
  apply (Adafruit_DCMotor_Hat_run_opposite (1 # 2)
           (Adafruit_DCMotor_Hat.mk 1 0 0) []).
  - unfold Qle. simpl. lia.
  - intros Hz. discriminate Hz.
Defined.

(** Half speed backwards on motor 3. *)
Example hat_run_half_reverse :
  Adafruit_DCMotor_Hat.run (- (1 # 2)) (Adafruit_DCMotor_Hat.mk 3 0 0, [])
  = (Ok tt,
     (Adafruit_DCMotor_Hat.mk 3 (- (1 # 2)) 127,
      [Adafruit_DCMotor_Hat.EvMotorRun 3 Adafruit_DCMotor_Hat.BACKWARD;
       Adafruit_DCMotor_Hat.EvSetSpeed 3 127])).
Proof. reflexivity. Qed.
